(** * Wallet service: ledger and webhook reconciliation

    A shallow embedding of the three mutating routes of
    [api/v1/routes/wallet.py] -- [deposit_to_wallet], [paystack_webhook] and
    [transfer_funds] -- over an explicit model of the SQLAlchemy session they
    share, followed by the properties of the ledger that hold (or fail) on
    that code. *)

From Stdlib Require Import ZArith String List Lia.
From stdpp Require Import base option list strings.
Import ListNotations.

Local Open Scope string_scope.
Local Open Scope list_scope.
Local Open Scope Z_scope.

(** ** Data model *)

(** Primary keys are UUIDs; only their identity matters. *)
Definition UUID := N.

Inductive TransactionType := DEPOSIT | TRANSFER.
Inductive TransactionDirection := DEBIT | CREDIT.
Inductive TransactionStatus := PENDING | SUCCESS | FAILED.

#[global] Instance TransactionStatus_eq_dec : EqDecision TransactionStatus.
Proof. solve_decision. Defined.

(** The [data] object of a gateway event.  Each of the three keys the route
    reads may be absent (or null), which is what [dict.get] turns into
    [None]; when present they carry the gateway's documented types. *)
Record EventData := mkEventData {
  ev_reference : option string;
  ev_amount : option Z;
  ev_status : option string
}.

(** The parsed JSON body of a webhook: [payload.get("event")] and
    [payload.get("data", {})]. *)
Record Payload := mkPayload {
  event : option string;
  data : EventData
}.

(** The free-form [extra] column of a transaction, restricted to the three
    shapes the routes store in it. *)
Inductive Extra :=
| NoExtra
| RecipientWallet (wallet_number : string)
| SenderWallet (wallet_number : string)
| EventExtra (d : EventData).

Module Wallet.

(** Modelled from the spec: the [Wallet] entity of [api/v1/models/wallet.py],
    which is not part of the sources: "a balance in integer minor units, a
    currency code, a unique external-facing wallet number, and a one-to-one
    owning relation to a principal". *)
Record t := mk {
  id : UUID;
  user_id : UUID;
  wallet_number : string;
  balance : Z;
  currency : string
}.

Definition set_balance (b : Z) (w : t) : t :=
  {| id := id w; user_id := user_id w; wallet_number := wallet_number w;
     balance := b; currency := currency w |}.

(** Modelled from the spec: [Wallet.credit], "pure in-memory mutation, not
    yet durable"; no failure is documented for it. *)
Definition credit (w : t) (amount : Z) : t :=
  set_balance (balance w + amount) w.

(** Modelled from the spec: [Wallet.debit], which "fails with
    InsufficientFunds if resulting balance would be negative". *)
Definition debit (w : t) (amount : Z) : option t :=
  if balance w - amount <? 0 then None
  else Some (set_balance (balance w - amount) w).

End Wallet.

Module Transaction.

(** Modelled from the spec: the [Transaction] entity of
    [api/v1/models/transaction.py], which is not part of the sources.  The
    route reads [debit_tx.id] and [credit_tx.id] to link the two rows of a
    transfer; following the spec ("set each draft's back-reference to the
    other's eventual id") a draft carries its id from construction on. *)
Record t := mk {
  id : UUID;
  reference : string;
  wallet_id : UUID;
  user_id : UUID;
  type : TransactionType;
  direction : TransactionDirection;
  amount : Z;
  status : TransactionStatus;
  related_tx_id : option UUID;
  extra : Extra
}.

Definition set_status (s : TransactionStatus) (x : t) : t :=
  {| id := id x; reference := reference x; wallet_id := wallet_id x;
     user_id := user_id x; type := type x; direction := direction x;
     amount := amount x; status := s; related_tx_id := related_tx_id x;
     extra := extra x |}.

Definition set_extra (e : Extra) (x : t) : t :=
  {| id := id x; reference := reference x; wallet_id := wallet_id x;
     user_id := user_id x; type := type x; direction := direction x;
     amount := amount x; status := status x;
     related_tx_id := related_tx_id x; extra := e |}.

Definition set_related_tx_id (r : option UUID) (x : t) : t :=
  {| id := id x; reference := reference x; wallet_id := wallet_id x;
     user_id := user_id x; type := type x; direction := direction x;
     amount := amount x; status := status x; related_tx_id := r;
     extra := extra x |}.

End Transaction.

Module WebhookLog.

Record t := mk {
  provider : string;
  payload : Payload;
  headers : list (string * string);
  processed : bool
}.

Definition set_processed (b : bool) (l : t) : t :=
  {| provider := provider l; payload := payload l; headers := headers l;
     processed := b |}.

End WebhookLog.

(** The authenticated principal handed over by [require_permission]. *)
Record User := mkUser {
  user_id : UUID;
  email : string
}.

(** ** The session *)

(** The three tables.  A row object of the ORM is identified with its
    position in its table: [fetch_one] returns the position together with
    the row, and an attribute assignment on the object is a write at that
    position. *)
Record Store := mkStore {
  wallets : list Wallet.t;
  transactions : list Transaction.t;
  webhook_logs : list WebhookLog.t
}.

(** A SQLAlchemy session: [work] is what the request sees and mutates,
    [durable] is the committed state, and [past] lists the earlier committed
    states, newest first, so that every commit point stays observable. *)
Record Session := mkSession {
  work : Store;
  durable : Store;
  past : list Store
}.

Definition set_work (s : Store) (db : Session) : Session :=
  {| work := s; durable := durable db; past := past db |}.

(** [db.commit()] *)
Definition commit (db : Session) : Session :=
  {| work := work db; durable := work db; past := durable db :: past db |}.

(** [model.insert(db, commit=...)] and [model.update(db, commit=...)] of the
    shared model base class (not part of the sources): the row joins the
    session, and the session is committed unless [commit=False] is passed. *)
Definition flush (do_commit : bool) (db : Session) : Session :=
  if do_commit then commit db else db.

(** Every commit point reached so far, newest first. *)
Definition commit_points (db : Session) : list Store :=
  durable db :: past db.

(** [get_db] hands every request a session of its own: it starts from the
    committed state, and what a request leaves uncommitted is lost. *)
Definition new_session (db : Session) : Session :=
  set_work (durable db) db.

Definition set_wallets (ws : list Wallet.t) (s : Store) : Store :=
  {| wallets := ws; transactions := transactions s;
     webhook_logs := webhook_logs s |}.

Definition set_transactions (ts : list Transaction.t) (s : Store) : Store :=
  {| wallets := wallets s; transactions := ts;
     webhook_logs := webhook_logs s |}.

Definition set_webhook_logs (ls : list WebhookLog.t) (s : Store) : Store :=
  {| wallets := wallets s; transactions := transactions s; webhook_logs := ls |}.

(** [Wallet.fetch_one(db, user_id=...)] *)
Definition Wallet_fetch_one_user_id (db : Session) (u : UUID)
  : option (nat * Wallet.t) :=
  list_find (λ w, Wallet.user_id w = u) (wallets (work db)).

(** [Wallet.fetch_one(db, id=...)] *)
Definition Wallet_fetch_one_id (db : Session) (i : UUID)
  : option (nat * Wallet.t) :=
  list_find (λ w, Wallet.id w = i) (wallets (work db)).

(** [Wallet.fetch_one(db, wallet_number=...)] *)
Definition Wallet_fetch_one_wallet_number (db : Session) (n : string)
  : option (nat * Wallet.t) :=
  list_find (λ w, Wallet.wallet_number w = n) (wallets (work db)).

(** [Transaction.fetch_one(db, reference=...)] *)
Definition Transaction_fetch_one_reference (db : Session) (r : string)
  : option (nat * Transaction.t) :=
  list_find (λ x, Transaction.reference x = r) (transactions (work db)).

(** Writing back the attributes of the wallet object at position [i]. *)
Definition Wallet_store (i : nat) (w : Wallet.t) (db : Session) : Session :=
  set_work (set_wallets (<[i := w]> (wallets (work db))) (work db)) db.

(** Writing back the attributes of the transaction object at position [i]. *)
Definition Transaction_store (i : nat) (x : Transaction.t) (db : Session)
  : Session :=
  set_work (set_transactions (<[i := x]> (transactions (work db))) (work db)) db.

(** [webhook_log.processed = True] on the log object at position [i]. *)
Definition WebhookLog_mark_processed (i : nat) (db : Session) : Session :=
  set_work
    (set_webhook_logs
       (alter (WebhookLog.set_processed true) i (webhook_logs (work db)))
       (work db)) db.

(** [transaction.insert(db, commit=...)]: the new row goes to the end of the
    table; its position is returned with the session. *)
Definition Transaction_insert (x : Transaction.t) (do_commit : bool)
    (db : Session) : nat * Session :=
  (length (transactions (work db)),
   flush do_commit
     (set_work (set_transactions (transactions (work db) ++ [x]) (work db)) db)).

(** [webhook_log.insert(db, commit=...)] *)
Definition WebhookLog_insert (l : WebhookLog.t) (do_commit : bool)
    (db : Session) : nat * Session :=
  (length (webhook_logs (work db)),
   flush do_commit
     (set_work (set_webhook_logs (webhook_logs (work db) ++ [l]) (work db)) db)).

(** ** Requests and responses *)

Record DepositRequest := mkDepositRequest {
  deposit_amount : Z
}.

Record TransferRequest := mkTransferRequest {
  transfer_wallet_number : string;
  transfer_amount : Z
}.

(** An inbound HTTP request as the webhook route reads it: the headers
    (their names in lower case, as the server hands them over), the raw
    body, and what [request.json()] makes of the body: [None] when the body
    is no JSON and the call raises.  A body that parses is taken to be a
    JSON object, as every event of the gateway is; other JSON values are
    outside the model. *)
Record Request := mkRequest {
  headers : list (string * string);
  body : string;
  json : option Payload
}.

(** [request.headers.get(name)] *)
Fixpoint headers_get (name : string) (hs : list (string * string))
  : option string :=
  match hs with
  | [] => None
  | (k, v) :: hs' => if String.eqb k name then Some v else headers_get name hs'
  end.

Inductive Exn :=
| HTTPException (status_code : Z) (detail : string)
  (** [HTTPException(500, f"Payment initialization failed: {str(e)}")] *)
| PaymentInitializationFailed (cause : Exn)
  (** any other Python exception, which the framework answers with a 500 *)
| PythonError (what : string).

Inductive ResponseData :=
| DepositInitialized (reference : string) (authorization_url : option string)
| TransferCompleted (reference : string) (amount : Z) (recipient : string).

Inductive Response :=
| success_response (status_code : Z) (message : string) (data : ResponseData)
  (** [fail_response] with its [context] of balance and required amount *)
| fail_response (status_code : Z) (message : string) (balance required : Z)
  (** the body [{"status": True}] of the webhook route *)
| Acknowledged
| Raised (e : Exn).

(** What [initialize_transaction] of the gateway client (an external
    collaborator, not part of the sources) does: it raises, or it returns a
    dictionary whose [status] is truthy or not and whose [data] is an object
    with an optional [authorization_url] ([None]: [data] is no object). *)
Inductive GatewayReply :=
| GatewayRaised (e : Exn)
| GatewayReturned (status : bool) (data : option (option string)).

(** The body of the [try] block of [deposit_to_wallet]: the authorization
    url it answers with, or the exception the [except] clause catches. *)
Definition initialize_attempt (reply : GatewayReply) : Exn + option string :=
  match reply with
  | GatewayRaised e => inl e
  | GatewayReturned false _ =>
      inl (HTTPException 500 "Failed to initialize payment")
  | GatewayReturned true None => inl (PythonError "AttributeError")
  | GatewayReturned true (Some url) => inr url
  end.

(** Python truthiness of an optional string: [not reference]. *)
Definition falsy (s : option string) : bool :=
  match s with
  | None => true
  | Some s => String.eqb s ""
  end.

Definition is_string (s : option string) (lit : string) : bool :=
  match s with
  | None => false
  | Some s => String.eqb s lit
  end.

(** ** The routes *)

Section Routes.

(** [verify_paystack_signature] of [api/utils/paystack.py] (not part of
    the sources): the keyed-hash check of the raw body against the
    signature header. *)
Variable verify_paystack_signature : string → string → bool.

(** [POST /wallet/deposit].  [hex] is [uuid.uuid4().hex[:16]], [tx_id] the
    key of the new row, [reply] the outcome of the gateway call. *)
Definition deposit_to_wallet (request : DepositRequest) (user : User)
    (hex : string) (tx_id : UUID) (reply : GatewayReply) (db : Session)
  : Response * Session :=
  if deposit_amount request <? 100 then
    (Raised (HTTPException 400 "Minimum deposit is 100 kobo (1 NGN)"), db)
  else
    match Wallet_fetch_one_user_id db (user_id user) with
    | None => (Raised (HTTPException 404 "Wallet not found"), db)
    | Some (_, wallet) =>
        let reference := ("dep_" ++ hex)%string in
        let transaction :=
          Transaction.mk tx_id reference (Wallet.id wallet) (user_id user)
            DEPOSIT CREDIT (deposit_amount request) PENDING None NoExtra in
        let '(i, db) := Transaction_insert transaction true db in
        match initialize_attempt reply with
        | inr authorization_url =>
            (success_response 200 "Deposit initialized"
               (DepositInitialized reference authorization_url), db)
        | inl e =>
            let db :=
              Transaction_store i
                (Transaction.set_status FAILED transaction) db in
            let db := flush true db in
            (Raised (PaymentInitializationFailed e), db)
        end
    end.

(** The [charge.success] branch of [paystack_webhook], entered with the
    log row at position [log] of the session. *)
Definition charge_success (d : EventData) (log : nat) (db : Session)
  : Response * Session :=
  if falsy (ev_reference d) then
    (Acknowledged, commit (WebhookLog_mark_processed log db))
  else
    match Transaction_fetch_one_reference db (default "" (ev_reference d)) with
    | None => (Acknowledged, commit (WebhookLog_mark_processed log db))
    | Some (i, transaction) =>
        if decide (Transaction.status transaction = SUCCESS) then
          (Acknowledged, commit (WebhookLog_mark_processed log db))
        else
          let updated :=
            if is_string (ev_status d) "success" then
              let transaction :=
                Transaction.set_extra (EventExtra d)
                  (Transaction.set_status SUCCESS transaction) in
              let db := Transaction_store i transaction db in
              match Wallet_fetch_one_id db (Transaction.wallet_id transaction) with
              | Some (j, wallet) =>
                  match ev_amount d with
                  | Some amount =>
                      let db := Wallet_store j (Wallet.credit wallet amount) db in
                      inr (flush false (flush false db))
                  | None => inl (PythonError "TypeError", db)
                  end
              | None => inr (flush false db)
              end
            else inr db in
          match updated with
          | inl failure => (Raised (fst failure), snd failure)
          | inr db => (Acknowledged, commit (WebhookLog_mark_processed log db))
          end
    end.

(** [POST /wallet/paystack/webhook] *)
Definition paystack_webhook (request : Request) (db : Session)
  : Response * Session :=
  let signature := headers_get "x-paystack-signature" (headers request) in
  if falsy signature then
    (Raised (HTTPException 400 "Missing signature"), db)
  else if negb (verify_paystack_signature (body request) (default "" signature))
  then (Raised (HTTPException 401 "Invalid signature"), db)
  else
    match json request with
    | None => (Raised (PythonError "JSONDecodeError"), db)
    | Some payload =>
        let webhook_log :=
          WebhookLog.mk "paystack" payload (headers request) false in
        let '(log, db) := WebhookLog_insert webhook_log false db in
        if is_string (event payload) "charge.success" then
          charge_success (data payload) log db
        else (Acknowledged, db)
    end.

(** [POST /wallet/transfer].  [hex] is [uuid.uuid4().hex[:16]];
    [debit_id] and [credit_id] are the keys of the two new rows. *)
Definition transfer_funds (request : TransferRequest) (user : User)
    (hex : string) (debit_id credit_id : UUID) (db : Session)
  : Response * Session :=
  let amount := transfer_amount request in
  if amount <=? 0 then (Raised (HTTPException 400 "Invalid amount"), db)
  else
    match Wallet_fetch_one_user_id db (user_id user) with
    | None => (Raised (HTTPException 404 "Sender wallet not found"), db)
    | Some (i, sender_wallet) =>
        if Wallet.balance sender_wallet <? amount then
          (fail_response 400 "Insufficient balance"
             (Wallet.balance sender_wallet) amount, db)
        else
          match Wallet_fetch_one_wallet_number db
                  (transfer_wallet_number request) with
          | None =>
              (Raised (HTTPException 404 "Recipient wallet not found"), db)
          | Some (j, recipient_wallet) =>
              if decide (Wallet.id recipient_wallet = Wallet.id sender_wallet)
              then (Raised (HTTPException 400 "Cannot transfer to self"), db)
              else
                let reference := ("txf_" ++ hex)%string in
                let debit_tx :=
                  Transaction.mk debit_id (reference ++ "_debit")%string
                    (Wallet.id sender_wallet) (user_id user)
                    TRANSFER DEBIT amount SUCCESS None
                    (RecipientWallet (transfer_wallet_number request)) in
                let credit_tx :=
                  Transaction.mk credit_id (reference ++ "_credit")%string
                    (Wallet.id recipient_wallet)
                    (Wallet.user_id recipient_wallet)
                    TRANSFER CREDIT amount SUCCESS None
                    (SenderWallet (Wallet.wallet_number sender_wallet)) in
                let '(k, db) := Transaction_insert debit_tx false db in
                let credit_tx :=
                  Transaction.set_related_tx_id
                    (Some (Transaction.id debit_tx)) credit_tx in
                let debit_tx :=
                  Transaction.set_related_tx_id
                    (Some (Transaction.id credit_tx)) debit_tx in
                let db := Transaction_store k debit_tx db in
                match Wallet.debit sender_wallet amount with
                | None => (Raised (PythonError "InsufficientFunds"), db)
                | Some sender_wallet =>
                    let db := Wallet_store i sender_wallet db in
                    let db :=
                      Wallet_store j (Wallet.credit recipient_wallet amount)
                        db in
                    let '(_, db) := Transaction_insert credit_tx false db in
                    let db := flush false (flush false db) in
                    let db := commit db in
                    (success_response 200 "Transfer completed"
                       (TransferCompleted reference amount
                          (transfer_wallet_number request)), db)
                end
          end
    end.

(** ** Sequences of requests *)

Inductive Operation :=
| Deposit (request : DepositRequest) (user : User) (hex : string)
    (tx_id : UUID) (reply : GatewayReply)
| Webhook (request : Request)
| Transfer (request : TransferRequest) (user : User) (hex : string)
    (debit_id credit_id : UUID).

(** One request, served in a session of its own. *)
Definition serve (op : Operation) (db : Session) : Response * Session :=
  match op with
  | Deposit request user hex tx_id reply =>
      deposit_to_wallet request user hex tx_id reply (new_session db)
  | Webhook request => paystack_webhook request (new_session db)
  | Transfer request user hex debit_id credit_id =>
      transfer_funds request user hex debit_id credit_id (new_session db)
  end.

Definition serve_all (ops : list Operation) (db : Session) : Session :=
  fold_left (λ db op, snd (serve op db)) ops db.

End Routes.

(** ** Vocabulary of the properties *)

Section Vocabulary.

Variable verify_paystack_signature : string → string → bool.

(** The request carries a non-empty signature header that verifies
    against its raw body. *)
Definition validly_signed (request : Request) : Prop :=
  ∃ signature,
    headers_get "x-paystack-signature" (headers request) = Some signature
    ∧ signature ≠ ""
    ∧ verify_paystack_signature (body request) signature = true.

End Vocabulary.

(** A [charge.success] event whose [data.status] is ["success"]. *)
Definition reports_settlement (payload : Payload) : Prop :=
  event payload = Some "charge.success"
  ∧ ev_status (data payload) = Some "success".

(** Two stores with the same wallets and the same transactions. *)
Definition same_ledger (s s' : Store) : Prop :=
  wallets s = wallets s' ∧ transactions s = transactions s'.

(** The ledger invariant: no wallet of the store has a negative balance. *)
Definition solvent (s : Store) : Prop :=
  Forall (λ w, 0 ≤ Wallet.balance w) (wallets s).

(** The contract of the gateway on what it signs: a delivery whose
    signature verifies names, if it names an amount, the amount of a charge,
    which is not negative.  Deliveries that do not verify are not
    constrained. *)
Definition signed_amount_not_negative (verify : string → string → bool)
    (op : Operation) : Prop :=
  match op with
  | Webhook request =>
      validly_signed verify request →
      ∀ payload a,
        json request = Some payload → ev_amount (data payload) = Some a → 0 ≤ a
  | _ => True
  end.

(** The preconditions of a transfer, as separate checks. *)
Inductive Precondition :=
| AmountPositive
| SenderResolvable
| SenderBalanceCovers
| RecipientResolvable
| RecipientDistinct.

(** Whether a precondition holds of a request in a session.  A check on a
    wallet that does not resolve counts as not satisfied. *)
Definition satisfied (p : Precondition) (request : TransferRequest)
    (user : User) (db : Session) : bool :=
  let sender := Wallet_fetch_one_user_id db (user_id user) in
  let recipient :=
    Wallet_fetch_one_wallet_number db (transfer_wallet_number request) in
  match p with
  | AmountPositive => 0 <? transfer_amount request
  | SenderResolvable => bool_decide (is_Some sender)
  | SenderBalanceCovers =>
      match sender with
      | Some (_, s) => transfer_amount request <=? Wallet.balance s
      | None => false
      end
  | RecipientResolvable => bool_decide (is_Some recipient)
  | RecipientDistinct =>
      match sender, recipient with
      | Some (_, s), Some (_, r) => negb (bool_decide (Wallet.id r = Wallet.id s))
      | _, _ => false
      end
  end.

(** The answer of the route to a request that violates a precondition. *)
Definition rejection (p : Precondition) (request : TransferRequest)
    (user : User) (db : Session) : Response :=
  match p with
  | AmountPositive => Raised (HTTPException 400 "Invalid amount")
  | SenderResolvable => Raised (HTTPException 404 "Sender wallet not found")
  | SenderBalanceCovers =>
      fail_response 400 "Insufficient balance"
        (from_option (λ s, Wallet.balance (snd s)) 0
           (Wallet_fetch_one_user_id db (user_id user)))
        (transfer_amount request)
  | RecipientResolvable =>
      Raised (HTTPException 404 "Recipient wallet not found")
  | RecipientDistinct => Raised (HTTPException 400 "Cannot transfer to self")
  end.

(** The first precondition of [order] that the request violates. *)
Definition first_violated (order : list Precondition)
    (request : TransferRequest) (user : User) (db : Session)
  : option Precondition :=
  snd <$> list_find (λ p, satisfied p request user db = false) order.

(** The order in which [transfer_funds] checks. *)
Definition route_order : list Precondition :=
  [AmountPositive; SenderResolvable; SenderBalanceCovers;
   RecipientResolvable; RecipientDistinct].

(** The order of the specification: "amount > 0; sender wallet resolvable;
    recipient wallet resolvable by its public wallet number; recipient is
    not the sender; sender balance covers the amount". *)
Definition stated_order : list Precondition :=
  [AmountPositive; SenderResolvable; RecipientResolvable;
   RecipientDistinct; SenderBalanceCovers].

(** A verifier for the concrete scenarios below: the signature of a body is
    the body behind a fixed tag. *)
Definition tagged (body signature : string) : bool :=
  String.eqb signature ("sha512=" ++ body)%string.

(** The invariant as the routes maintain it: the session in progress and
    every commit point are solvent. *)
Definition sound (db : Session) : Prop :=
  solvent (work db) ∧ Forall solvent (commit_points db).

(** ** A concrete ledger *)

(** The scenario of the specification: wallet A holds 5000 minor units,
    wallet B, with the number B-001, holds nothing. *)
Definition wallet_A : Wallet.t := Wallet.mk 1%N 10%N "A-001" 5000 "NGN".
Definition wallet_B : Wallet.t := Wallet.mk 2%N 20%N "B-001" 0 "NGN".
Definition owner_A : User := mkUser 10%N "a@example.com".
Definition owner_B : User := mkUser 20%N "b@example.com".

(** A deposit of 700 into wallet B, as [deposit_to_wallet] leaves it. *)
Definition open_deposit : Transaction.t :=
  Transaction.mk 7%N "dep_0123456789abcdef" 2%N 20%N DEPOSIT CREDIT 700 PENDING
    None NoExtra.

Definition ledger (rows : list Transaction.t) : Store :=
  mkStore [wallet_A; wallet_B] rows [].

(** A database at rest: nothing pending, no earlier commit point. *)
Definition at_rest (s : Store) : Session := mkSession s s [].

(** A request whose signature [tagged] accepts. *)
Definition signed (payload : Payload) : Request :=
  mkRequest [("x-paystack-signature", "sha512=raw")] "raw" (Some payload).

(** The same delivery with a signature that [tagged] refuses. *)
Definition forged (payload : Payload) : Request :=
  mkRequest [("x-paystack-signature", "sha512=other")] "raw" (Some payload).

(** The gateway confirming the deposit with the given amount. *)
Definition settlement (amount : Z) : Payload :=
  mkPayload (Some "charge.success")
    (mkEventData (Some "dep_0123456789abcdef") (Some amount) (Some "success")).

(** An event of another type for the same reference. *)
Definition refund_notice : Payload :=
  mkPayload (Some "refund.processed")
    (mkEventData (Some "dep_0123456789abcdef") (Some 700) (Some "processed")).

(** ** The read-only routes of the wallet *)

Inductive ReadData :=
| StatusRetrieved (reference : string) (status : TransactionStatus)
    (amount : Z) (paystack_status : option (option string))
| BalanceRetrieved (balance : Z) (currency : string)
| TransactionsRetrieved (transactions : list Transaction.t).

Inductive ReadResponse :=
| read_success (status_code : Z) (message : string) (data : ReadData)
| read_raised (e : Exn).

(** [Transaction.fetch_one(db, reference=..., user_id=...)] *)
Definition Transaction_fetch_one_reference_user_id (db : Session)
    (r : string) (u : UUID) : option (nat * Transaction.t) :=
  list_find (λ x, Transaction.reference x = r ∧ Transaction.user_id x = u)
    (transactions (work db)).

(** [Transaction.fetch_all(db, wallet_id=...)].  Modelled from the spec: the
    query helper of the model base class is not part of the sources; the
    rows come "by creation time, newest first", which for a table kept in
    insertion order is the matching rows in reverse. *)
Definition Transaction_fetch_all_wallet_id (db : Session) (w : UUID)
  : list Transaction.t :=
  reverse (filter (λ x, Transaction.wallet_id x = w) (transactions (work db))).

(** [GET /wallet/deposit/{reference}/status].  [gateway] is what the [try]
    block gets out of [verify_transaction]: [None] when the call or the
    reading of its answer raises, otherwise the value of [data.status]. *)
Definition check_deposit_status (reference : string) (user : User)
    (gateway : option (option string)) (db : Session) : ReadResponse :=
  match Transaction_fetch_one_reference_user_id db reference (user_id user) with
  | None => read_raised (HTTPException 404 "Transaction not found")
  | Some (_, transaction) =>
      match gateway with
      | Some paystack_status =>
          read_success 200 "Transaction status retrieved"
            (StatusRetrieved reference (Transaction.status transaction)
               (Transaction.amount transaction) (Some paystack_status))
      | None =>
          read_success 200 "Transaction status retrieved"
            (StatusRetrieved reference (Transaction.status transaction)
               (Transaction.amount transaction) None)
      end
  end.

(** [GET /wallet/balance] *)
Definition get_wallet_balance (user : User) (db : Session) : ReadResponse :=
  match Wallet_fetch_one_user_id db (user_id user) with
  | None => read_raised (HTTPException 404 "Wallet not found")
  | Some (_, wallet) =>
      read_success 200 "Balance retrieved"
        (BalanceRetrieved (Wallet.balance wallet) (Wallet.currency wallet))
  end.

(** [GET /wallet/transactions].  The route renders every row as a
    dictionary of its id, type, direction, amount, status, reference,
    creation time and extra; the rows themselves stand for that list. *)
Definition get_transaction_history (user : User) (db : Session)
  : ReadResponse :=
  match Wallet_fetch_one_user_id db (user_id user) with
  | None => read_raised (HTTPException 404 "Wallet not found")
  | Some (_, wallet) =>
      read_success 200 "Transactions retrieved"
        (TransactionsRetrieved
           (Transaction_fetch_all_wallet_id db (Wallet.id wallet)))
  end.

(** ** How the ledger may change *)

(** Two rows that are the same entry of the ledger: they differ at most in
    status and metadata. *)
Definition same_entry (x y : Transaction.t) : Prop :=
  Transaction.id x = Transaction.id y
  ∧ Transaction.reference x = Transaction.reference y
  ∧ Transaction.wallet_id x = Transaction.wallet_id y
  ∧ Transaction.user_id x = Transaction.user_id y
  ∧ Transaction.type x = Transaction.type y
  ∧ Transaction.direction x = Transaction.direction y
  ∧ Transaction.amount x = Transaction.amount y
  ∧ Transaction.related_tx_id x = Transaction.related_tx_id y.

(** The table [ts'] continues the table [ts]: every row is still there, at
    its position, as the same entry; a SUCCESS row is untouched, and a row
    that changed status is SUCCESS now. *)
Definition continues (ts ts' : list Transaction.t) : Prop :=
  ∀ k x, ts !! k = Some x →
    ∃ y, ts' !! k = Some y
      ∧ same_entry x y
      ∧ (Transaction.status x = SUCCESS → y = x)
      ∧ (Transaction.status y = Transaction.status x
         ∨ Transaction.status y = SUCCESS).

(** Two wallets that are the same account: they differ at most in balance. *)
Definition same_account (v w : Wallet.t) : Prop :=
  Wallet.id v = Wallet.id w
  ∧ Wallet.user_id v = Wallet.user_id w
  ∧ Wallet.wallet_number v = Wallet.wallet_number w
  ∧ Wallet.currency v = Wallet.currency w.

(** The sum of all balances of a store. *)
Definition total (s : Store) : Z :=
  foldr (λ w acc, Wallet.balance w + acc) 0 (wallets s).

(** ** Credentials *)

Module APIKey.

(** The [APIKey] entity of [api/v1/models/api_key.py] (not part of the
    sources), with the columns the routes set and read. *)
Record t := mk {
  id : UUID;
  user_id : UUID;
  name : string;
  hashed_key : string;
  permissions : list string;
  expires_at : Z;
  revoked : bool
}.

End APIKey.

(** The tables behind authentication.  The key routes write one row with
    one [insert] that commits at once, so the committed tables are passed
    along as they are. *)
Record Directory := mkDirectory {
  users : list User;
  api_keys : list APIKey.t
}.

Inductive KeyData :=
| KeyCreated (api_key : string) (expires_at : Z)
| KeyRolledOver (api_key : string) (expires_at : Z) (permissions : list string).

Inductive KeyContext :=
| NoContext
| ActiveKeysCount (n : nat)
| ExpiresAt (expires_at : Z).

Inductive KeyResponse :=
| key_success (status_code : Z) (message : string) (data : KeyData)
| key_fail (status_code : Z) (message : string) (context : KeyContext)
| key_raised (e : Exn).

Record CreateAPIKeyRequest := mkCreateAPIKeyRequest {
  create_name : string;
  create_permissions : list string;
  create_expiry : string
}.

Record RolloverAPIKeyRequest := mkRolloverAPIKeyRequest {
  expired_key_id : string;
  rollover_expiry : string
}.

(** The table of [parse_expiry_to_datetime], its [timedelta]s in seconds. *)
Definition mapping : list (string * Z) :=
  [("1H", 3600); ("1D", 86400); ("1M", 30 * 86400); ("1Y", 365 * 86400)].

(** [mapping.get(key)] *)
Fixpoint mapping_get (key : string) (m : list (string * Z)) : option Z :=
  match m with
  | [] => None
  | (k, v) :: m' => if String.eqb k key then Some v else mapping_get key m'
  end.

Definition valid_permissions : list string := ["deposit"; "transfer"; "read"].

(** [perm not in valid_permissions], for the first offending [perm]. *)
Definition first_invalid (perms : list string) : option string :=
  snd <$> list_find (λ perm, perm ∉ valid_permissions) perms.

Section Credentials.

(** [hashlib.sha256(text.encode()).hexdigest()] *)
Variable sha256_hexdigest : string → string.

(** [APIKey.is_active] of the model (not part of the sources), at the time
    of the request: the key is neither revoked nor expired. *)
Variable is_active : APIKey.t → bool.

(** [expiry.strip().upper()] of the Python runtime. *)
Variable strip_upper : string → string.

(** [uuid.UUID(text)]; [None] stands for its [ValueError]. *)
Variable parse_uuid : string → option UUID.

(** [generate_api_key]; [random_part] is [secrets.token_urlsafe(32)]. *)
Definition generate_api_key (random_part : string) : string :=
  ("sk_live__" ++ random_part)%string.

Definition hash_api_key (api_key : string) : string :=
  sha256_hexdigest api_key.

Definition verify_api_key (plain_key hashed_key : string) : bool :=
  String.eqb (sha256_hexdigest plain_key) hashed_key.

(** [parse_expiry_to_datetime], with [now] for
    [datetime.now(timezone.utc)] in seconds.  A [timedelta] is falsy when
    it is zero. *)
Definition parse_expiry_to_datetime (now : Z) (expiry : string) : option Z :=
  let expiry := strip_upper expiry in
  match mapping_get expiry mapping with
  | None => None
  | Some delta => if delta =? 0 then None else Some (now + delta)
  end.

(** [User.fetch_one(db, id=...)] *)
Definition User_fetch_one_id (dir : Directory) (i : UUID) : option User :=
  snd <$> list_find (λ u, user_id u = i) (users dir).

(** The loop of [get_current_user_from_api_key] over the keys. *)
Fixpoint match_api_key (x_api_key : string) (keys : list APIKey.t)
    (dir : Directory) : Exn + option (User * APIKey.t) :=
  match keys with
  | [] => inr None
  | api_key :: keys' =>
      if verify_api_key x_api_key (APIKey.hashed_key api_key) then
        if negb (is_active api_key) then
          inl (HTTPException 401 "API key is revoked or expired")
        else
          match User_fetch_one_id dir (APIKey.user_id api_key) with
          | None =>
              inl (HTTPException 401 "User not found for the provided API key")
          | Some user => inr (Some (user, api_key))
          end
      else match_api_key x_api_key keys' dir
  end.

(** [get_current_user_from_api_key] of [api/utils/deps.py] *)
Definition get_current_user_from_api_key (x_api_key : option string)
    (dir : Directory) : Exn + option (User * APIKey.t) :=
  if falsy x_api_key then inr None
  else match_api_key (default "" x_api_key) (api_keys dir) dir.

(** [get_authenticated_user]; its arguments are the results of the two
    dependencies before it. *)
Definition get_authenticated_user (jwt_user : option User)
    (api_key_data : option (User * APIKey.t)) : Exn + User * option APIKey.t :=
  match jwt_user with
  | Some user => inr (user, None)
  | None =>
      match api_key_data with
      | Some (user, api_key) => inr (user, Some api_key)
      | None => inl (HTTPException 401 "Authentication required")
      end
  end.

(** [require_permission(permission)], the checker it returns. *)
Definition require_permission (permission : string)
    (auth_data : User * option APIKey.t) : Exn + User :=
  match auth_data with
  | (user, None) => inr user
  | (user, Some api_key) =>
      if bool_decide (permission ∉ APIKey.permissions api_key) then
        inl (HTTPException 403 "Insufficient API key permissions")
      else inr user
  end.

(** The chain of dependencies of a wallet route, resolved in the order in
    which they are declared: the key header is looked up whether or not a
    token has identified the caller, and the first exception ends the
    request.  [jwt_user] is the result of [get_current_user_from_jwt]. *)
Definition authorize (permission : string) (jwt_user : option User)
    (x_api_key : option string) (dir : Directory) : Exn + User :=
  match get_current_user_from_api_key x_api_key dir with
  | inl e => inl e
  | inr api_key_data =>
      match get_authenticated_user jwt_user api_key_data with
      | inl e => inl e
      | inr auth_data => require_permission permission auth_data
      end
  end.

(** [APIKey.fetch_all(db, user_id=...)] filtered by [is_active]. *)
Definition active_keys (u : UUID) (dir : Directory) : list APIKey.t :=
  filter (λ key, is_active key = true)
    (filter (λ key, APIKey.user_id key = u) (api_keys dir)).

(** [api_key.insert(db)] *)
Definition APIKey_insert (key : APIKey.t) (dir : Directory) : Directory :=
  {| users := users dir; api_keys := api_keys dir ++ [key] |}.

(** [APIKey.fetch_one(db, id=..., user_id=...)] *)
Definition APIKey_fetch_one_id_user_id (dir : Directory) (i u : UUID)
  : option APIKey.t :=
  snd <$> list_find (λ key, APIKey.id key = i ∧ APIKey.user_id key = u)
            (api_keys dir).

(** [POST /keys/create].  [random_part] feeds [generate_api_key], [key_id]
    is the key of the new row. *)
Definition create_api_key (request : CreateAPIKeyRequest) (user : User)
    (now : Z) (random_part : string) (key_id : UUID) (dir : Directory)
  : KeyResponse * Directory :=
  match parse_expiry_to_datetime now (create_expiry request) with
  | None =>
      (key_raised
         (HTTPException 400 "Invalid expiry format. Use: 1H, 1D, 1M, or 1Y"),
       dir)
  | Some expires_at =>
      let active := active_keys (user_id user) dir in
      if (5 <=? length active)%nat then
        (key_fail 400 "Maximum 5 active API keys allowed per user"
           (ActiveKeysCount (length active)), dir)
      else
        match first_invalid (create_permissions request) with
        | Some perm =>
            (key_raised
               (HTTPException 400
                  ("Invalid permission: " ++ perm
                   ++ ". Valid: ['deposit', 'transfer', 'read']")%string),
             dir)
        | None =>
            let plain_key := generate_api_key random_part in
            let hashed_key := hash_api_key plain_key in
            let api_key :=
              APIKey.mk key_id (user_id user) (create_name request)
                hashed_key (create_permissions request) expires_at false in
            (key_success 201 "API key created successfully"
               (KeyCreated plain_key expires_at),
             APIKey_insert api_key dir)
        end
  end.

(** [POST /keys/rollover] *)
Definition rollover_api_key (request : RolloverAPIKeyRequest) (user : User)
    (now : Z) (random_part : string) (key_id : UUID) (dir : Directory)
  : KeyResponse * Directory :=
  match parse_uuid (expired_key_id request) with
  | None => (key_raised (HTTPException 400 "Invalid key ID format"), dir)
  | Some old_id =>
      match APIKey_fetch_one_id_user_id dir old_id (user_id user) with
      | None => (key_raised (HTTPException 404 "API key not found"), dir)
      | Some old_key =>
          if is_active old_key then
            (key_fail 400 "Cannot rollover active key. Key must be expired."
               (ExpiresAt (APIKey.expires_at old_key)), dir)
          else
            match parse_expiry_to_datetime now (rollover_expiry request) with
            | None =>
                (key_raised
                   (HTTPException 400
                      "Invalid expiry format. Use: 1H, 1D, 1M, or 1Y"), dir)
            | Some new_expires_at =>
                let active := active_keys (user_id user) dir in
                if (5 <=? length active)%nat then
                  (key_fail 400 "Maximum 5 active API keys allowed per user"
                     NoContext, dir)
                else
                  let plain_key := generate_api_key random_part in
                  let hashed_key := hash_api_key plain_key in
                  let new_key :=
                    APIKey.mk key_id (user_id user) (APIKey.name old_key)
                      hashed_key (APIKey.permissions old_key)
                      new_expires_at false in
                  (key_success 201 "API key rolled over successfully"
                     (KeyRolledOver plain_key new_expires_at
                        (APIKey.permissions old_key)),
                   APIKey_insert new_key dir)
            end
      end
  end.

(** No user has more than five active keys. *)
Definition key_limit (dir : Directory) : Prop :=
  ∀ u, (length (active_keys u dir) ≤ 5)%nat.

End Credentials.

(** Every key grants permissions of the three known kinds only. *)
Definition permissions_valid (dir : Directory) : Prop :=
  Forall (λ key, Forall (λ perm, perm ∈ valid_permissions)
                   (APIKey.permissions key)) (api_keys dir).

(** The two rows a transfer writes. *)
Definition debit_row (request : TransferRequest) (user : User) (hex : string)
    (debit_id credit_id : UUID) (X : Wallet.t) : Transaction.t :=
  Transaction.mk debit_id (("txf_" ++ hex) ++ "_debit")%string (Wallet.id X)
    (user_id user) TRANSFER DEBIT (transfer_amount request) SUCCESS
    (Some credit_id) (RecipientWallet (transfer_wallet_number request)).

Definition credit_row (request : TransferRequest) (hex : string)
    (debit_id credit_id : UUID) (X Y : Wallet.t) : Transaction.t :=
  Transaction.mk credit_id (("txf_" ++ hex) ++ "_credit")%string (Wallet.id Y)
    (Wallet.user_id Y) TRANSFER CREDIT (transfer_amount request) SUCCESS
    (Some debit_id) (SenderWallet (Wallet.wallet_number X)).

(** ** Stand-ins for the concrete scenarios *)

(** The ASCII part of [str.strip]: blanks, tabs and line ends go. *)
Definition is_space (c : Ascii.ascii) : bool :=
  bool_decide (Ascii.nat_of_ascii c ∈ [32; 9; 10; 11; 12; 13]%nat).

Fixpoint lstrip (s : string) : string :=
  match s with
  | EmptyString => EmptyString
  | String c s' => if is_space c then lstrip s' else s
  end.

Definition strip (s : string) : string :=
  String.rev (lstrip (String.rev (lstrip s))).

(** The ASCII part of [str.upper]. *)
Definition upper_char (c : Ascii.ascii) : Ascii.ascii :=
  let n := Ascii.nat_of_ascii c in
  if bool_decide (97 ≤ n ≤ 122)%nat then Ascii.ascii_of_nat (n - 32) else c.

Fixpoint upper (s : string) : string :=
  match s with
  | EmptyString => EmptyString
  | String c s' => String (upper_char c) (upper s')
  end.

Definition ascii_strip_upper (s : string) : string := upper (strip s).

(** A digest that is a tag around the text, a clock that stands at 1000,
    and key ids written as one decimal digit. *)
Definition tag_digest (text : string) : string := ("sha256:" ++ text)%string.

Definition active_at_1000 (key : APIKey.t) : bool :=
  negb (APIKey.revoked key) && (1000 <? APIKey.expires_at key).

Definition digit_uuid (text : string) : option UUID :=
  match text with
  | String c EmptyString =>
      let n := Ascii.nat_of_ascii c in
      if bool_decide (48 ≤ n ≤ 57)%nat then Some (N.of_nat (n - 48)) else None
  | _ => None
  end.

(** The owner of A holds one key that reads only and one key that ran out
    at 500; the plain keys are sk_live__reader and sk_live__stale. *)
Definition reader_key : APIKey.t :=
  APIKey.mk 1%N 10%N "reader" "sha256:sk_live__reader" ["read"] 5000 false.

Definition stale_key : APIKey.t :=
  APIKey.mk 2%N 10%N "stale" "sha256:sk_live__stale" ["transfer"; "read"]
    500 false.

Definition directory : Directory :=
  mkDirectory [owner_A; owner_B] [reader_key; stale_key].

(** ** Properties *)

(** *** Tables *)

Lemma falsy_Some (s : string) : s ≠ "" → falsy (Some s) = false.
Proof. intros Hs. simpl. by apply String.eqb_neq. Qed.

Lemma falsy_true (s : option string) : falsy s = true ↔ s = None ∨ s = Some "".
Proof.
  destruct s as [s|]; simpl.
  - rewrite String.eqb_eq. split; [intros ->; by right|].
    intros [?|?]; congruence.
  - split; [by left|done].
Qed.

Lemma is_string_true (s : option string) (lit : string) :
  is_string s lit = true ↔ s = Some lit.
Proof.
  destruct s as [s|]; simpl; [|split; [done|discriminate]].
  rewrite String.eqb_eq. split; congruence.
Qed.

Lemma is_string_false (s : option string) (lit : string) :
  is_string s lit = false ↔ s ≠ Some lit.
Proof.
  rewrite <- is_string_true. destruct (is_string s lit); split; congruence.
Qed.

(** Overwriting the row a search has found by a row that still matches
    leaves the search on the same position. *)
Lemma list_find_overwrite {A} (P : A → Prop) `{!∀ x, Decision (P x)}
    (l : list A) (i : nat) (x y : A) :
  list_find P l = Some (i, x) → P y →
  list_find P (<[i := y]> l) = Some (i, y).
Proof.
  intros (Hi & _ & Hleast)%list_find_Some Hy.
  apply list_find_insert_Some. right; left.
  split_and!; eauto using lookup_lt_Some.
Qed.

(** A search that has found a row points into the table. *)
Lemma list_find_lookup {A} (P : A → Prop) `{!∀ x, Decision (P x)}
    (l : list A) (i : nat) (x : A) :
  list_find P l = Some (i, x) → l !! i = Some x ∧ P x.
Proof. intros (? & ? & _)%list_find_Some. done. Qed.

Lemma alter_last {A} (f : A → A) (l : list A) (x : A) :
  alter f (length l) (l ++ [x]) = l ++ [f x].
Proof.
  rewrite alter_app_r_alt by lia. by rewrite Nat.sub_diag.
Qed.

Lemma insert_last {A} (l : list A) (x y : A) :
  <[length l := y]> (l ++ [x]) = l ++ [y].
Proof.
  rewrite insert_app_r_alt by lia. by rewrite Nat.sub_diag.
Qed.

(** *** The signature gate *)

Section Gate.

Variable verify : string → string → bool.

(** Past the gate the route records the event and dispatches on it. *)
Lemma paystack_webhook_signed (request : Request) (payload : Payload)
    (db : Session) :
  validly_signed verify request →
  json request = Some payload →
  paystack_webhook verify request db =
    let entry := WebhookLog.mk "paystack" payload (headers request) false in
    let recorded := WebhookLog_insert entry false db in
    if is_string (event payload) "charge.success"
    then charge_success (data payload) recorded.1 recorded.2
    else (Acknowledged, recorded.2).
Proof.
  intros (signature & Hget & Hne & Hok) Hjson.
  unfold paystack_webhook. rewrite Hget, (falsy_Some _ Hne). simpl.
  by rewrite Hok, Hjson.
Qed.

(** C6: a webhook request whose signature header is missing (or empty), or
    whose signature does not verify against the raw body, is answered with
    an HTTP error (400 for a missing, 401 for an invalid signature) and the
    session is returned exactly as it was received: no log row, no lookup
    result, no transaction or wallet write, no commit. *)
Theorem unsigned_webhook_rejected (request : Request) (db : Session) :
  ¬ validly_signed verify request →
  ∃ status_code detail,
    paystack_webhook verify request db =
      (Raised (HTTPException status_code detail), db)
    ∧ (status_code = 400 ∧ detail = "Missing signature"
       ∨ status_code = 401 ∧ detail = "Invalid signature").
Proof.
  intros Hnot. unfold paystack_webhook.
  destruct (falsy _) eqn:Hfalsy; [by eauto 10|].
  destruct (headers_get _ _) as [signature|] eqn:Hget; [|done].
  destruct (verify _ _) eqn:Hok; simpl; [|by eauto 10].
  destruct Hnot. exists signature. split_and!; [done| |done].
  intros ->. simpl in Hfalsy. discriminate.
Qed.

End Gate.

(** *** Transfers *)

(** Two wallet objects with different keys sit at different positions. *)
Lemma distinct_wallets_apart (db : Session) (u : UUID) (n : string)
    (i j : nat) (X Y : Wallet.t) :
  Wallet_fetch_one_user_id db u = Some (i, X) →
  Wallet_fetch_one_wallet_number db n = Some (j, Y) →
  Wallet.id Y ≠ Wallet.id X →
  i ≠ j.
Proof.
  intros [HX _]%list_find_lookup [HY _]%list_find_lookup Hid ->.
  congruence.
Qed.

(** C4: a transfer whose amount exceeds the balance of the sender (a
    balance that respects the ledger invariant) is answered with the
    fail response "Insufficient balance", status 400, whose context reports
    the current balance and the required amount; the session comes back
    exactly as it went in, so no balance has moved, no transaction row
    exists and nothing was committed. *)
Theorem transfer_beyond_balance_refused (request : TransferRequest)
    (user : User) (hex : string) (debit_id credit_id : UUID) (db : Session)
    (i : nat) (sender : Wallet.t) :
  Wallet_fetch_one_user_id db (user_id user) = Some (i, sender) →
  0 ≤ Wallet.balance sender →
  Wallet.balance sender < transfer_amount request →
  transfer_funds request user hex debit_id credit_id db =
    (fail_response 400 "Insufficient balance"
       (Wallet.balance sender) (transfer_amount request), db).
Proof.
  intros Hsender Hinv Hlt. unfold transfer_funds. rewrite Hsender.
  destruct (Z.leb_spec (transfer_amount request) 0); [lia|].
  destruct (Z.ltb_spec (Wallet.balance sender) (transfer_amount request));
    [done|lia].
Qed.

(** C9, as the route has it: the preconditions are checked in the order
    amount > 0, sender resolvable, sender balance covers the amount,
    recipient resolvable, recipient distinct from the sender; the first one
    violated decides the answer, and the session is left as it was. *)
Theorem transfer_rejects_first_violated (request : TransferRequest)
    (user : User) (hex : string) (debit_id credit_id : UUID) (db : Session)
    (p : Precondition) :
  first_violated route_order request user db = Some p →
  transfer_funds request user hex debit_id credit_id db =
    (rejection p request user db, db).
Proof.
  unfold first_violated, route_order. cbn [list_find].
  destruct (satisfied AmountPositive request user db) eqn:E1;
    unfold satisfied in E1; unfold transfer_funds.
  2:{ cbn. intros [= <-]. apply Z.ltb_ge in E1.
      by destruct (Z.leb_spec (transfer_amount request) 0); [|lia]. }
  apply Z.ltb_lt in E1.
  destruct (Z.leb_spec (transfer_amount request) 0) as [|_]; [lia|].
  destruct (satisfied SenderResolvable request user db) eqn:E2;
    unfold satisfied in E2.
  2:{ cbn. intros [= <-]. apply bool_decide_eq_false in E2.
      destruct (Wallet_fetch_one_user_id db (user_id user)); [|done].
      destruct E2; eauto. }
  apply bool_decide_eq_true in E2 as [[i s] Hs].
  destruct (satisfied SenderBalanceCovers request user db) eqn:E3;
    unfold satisfied in E3; rewrite Hs in E3 |- *.
  2:{ cbn. intros [= <-]. apply Z.leb_gt in E3. unfold rejection.
      rewrite Hs. cbn.
      by destruct (Z.ltb_spec (Wallet.balance s) (transfer_amount request));
        [|lia]. }
  apply Z.leb_le in E3.
  destruct (Z.ltb_spec (Wallet.balance s) (transfer_amount request)) as [|_];
    [lia|].
  destruct (satisfied RecipientResolvable request user db) eqn:E4;
    unfold satisfied in E4.
  2:{ cbn. intros [= <-]. apply bool_decide_eq_false in E4.
      destruct (Wallet_fetch_one_wallet_number db _); [|done].
      destruct E4; eauto. }
  apply bool_decide_eq_true in E4 as [[j r] Hr].
  destruct (satisfied RecipientDistinct request user db) eqn:E5;
    unfold satisfied in E5; rewrite Hs, Hr in E5; [by cbn|].
  cbn. intros [= <-]. apply negb_false_iff, bool_decide_eq_true in E5.
  rewrite Hr. by rewrite decide_True by done.
Qed.


(** *** Deposit initiation *)

(** C8: when the gateway call of a deposit initiation does not succeed (the
    client raises, answers with a falsy status, or answers without a data
    object), the row committed as PENDING before the call is committed
    again with status FAILED, otherwise the entry it was; the caller gets
    the error "Payment initialization failed"; and the wallets of both
    commit points, and of the session, are those the request started
    with. *)
Theorem failed_initiation_marks_failed (request : DepositRequest)
    (user : User) (hex : string) (tx_id : UUID) (reply : GatewayReply)
    (db : Session) (j : nat) (wallet : Wallet.t) :
  let transaction :=
    Transaction.mk tx_id ("dep_" ++ hex)%string (Wallet.id wallet)
      (user_id user) DEPOSIT CREDIT (deposit_amount request) PENDING None
      NoExtra in
  100 ≤ deposit_amount request →
  Wallet_fetch_one_user_id db (user_id user) = Some (j, wallet) →
  (∀ url, reply ≠ GatewayReturned true (Some url)) →
  ∃ e pending failed row db',
    deposit_to_wallet request user hex tx_id reply db =
      (Raised (PaymentInitializationFailed e), db')
    ∧ commit_points db' = failed :: pending :: commit_points db
    ∧ work db' = failed
    ∧ transactions pending = transactions (work db) ++ [transaction]
    ∧ transactions failed = transactions (work db) ++ [row]
    ∧ Transaction.status row = FAILED
    ∧ same_entry transaction row
    ∧ Transaction.extra row = NoExtra
    ∧ wallets pending = wallets (work db)
    ∧ wallets failed = wallets (work db).
Proof.
  intros transaction Hmin Hwallet Hfail. unfold deposit_to_wallet.
  destruct (Z.ltb_spec (deposit_amount request) 100) as [|_]; [lia|].
  rewrite Hwallet.
  assert (∃ e, initialize_attempt reply = inl e) as [e He].
  { destruct reply as [e|[] [url|]]; cbn; eauto. by destruct (Hfail url). }
  cbn. rewrite He. cbn.
  exists e. eexists _, _, (Transaction.set_status FAILED transaction), _.
  split; [reflexivity|].
  cbn. split_and!; try reflexivity; try (by repeat split).
  cbn. by rewrite insert_last.
Qed.

(** *** Webhook reconciliation *)

(** The branch acknowledges without touching the ledger when the reference
    is missing or unknown, when the transaction is settled already, and
    when the event does not report success. *)
Lemma charge_success_idle (d : EventData) (log : nat) (db : Session) :
  falsy (ev_reference d) = true
  ∨ Transaction_fetch_one_reference db (default "" (ev_reference d)) = None
  ∨ (∃ i x,
       Transaction_fetch_one_reference db (default "" (ev_reference d))
         = Some (i, x)
       ∧ (Transaction.status x = SUCCESS ∨ ev_status d ≠ Some "success")) →
  charge_success d log db =
    (Acknowledged, commit (WebhookLog_mark_processed log db)).
Proof.
  unfold charge_success. intros [->|Hcase]; [done|].
  destruct (falsy _); [done|].
  destruct Hcase as [->|(i & x & -> & Hx)]; [done|].
  case_decide; [done|]. destruct Hx as [?|Hx]; [done|].
  apply is_string_false in Hx. by rewrite Hx.
Qed.

(** The branch settles an open transaction on an event that reports
    success: the row is marked, the wallet it names is credited by the
    amount of the event, and the session is committed. *)
Lemma charge_success_settles (d : EventData) (log : nat) (db : Session)
    (r : string) (a : Z) (i j : nat) (x : Transaction.t) (w : Wallet.t) :
  ev_reference d = Some r → r ≠ "" →
  ev_status d = Some "success" →
  ev_amount d = Some a →
  Transaction_fetch_one_reference db r = Some (i, x) →
  Transaction.status x ≠ SUCCESS →
  Wallet_fetch_one_id db (Transaction.wallet_id x) = Some (j, w) →
  charge_success d log db =
    (Acknowledged,
     commit
       (WebhookLog_mark_processed log
          (Wallet_store j (Wallet.credit w a)
             (Transaction_store i
                (Transaction.set_extra (EventExtra d)
                   (Transaction.set_status SUCCESS x)) db)))).
Proof.
  intros Hr Hne Hstatus Ha Hx Hopen Hw. unfold charge_success.
  rewrite Hr, (falsy_Some _ Hne). cbn [default from_option id]. rewrite Hx.
  rewrite decide_False by done.
  apply is_string_true in Hstatus. rewrite Hstatus.
  change (Wallet_fetch_one_id (Transaction_store i ?t db) ?k)
    with (Wallet_fetch_one_id db k).
  cbn [Transaction.wallet_id Transaction.set_extra Transaction.set_status].
  by rewrite Hw, Ha.
Qed.

Section Reconciliation.

Variable verify : string → string → bool.

(** Recording the event changes neither lookup. *)
Lemma fetch_reference_recorded (l : WebhookLog.t) (db : Session) (r : string) :
  Transaction_fetch_one_reference (WebhookLog_insert l false db).2 r
  = Transaction_fetch_one_reference db r.
Proof. reflexivity. Qed.

Lemma fetch_wallet_recorded (l : WebhookLog.t) (db : Session) (k : UUID) :
  Wallet_fetch_one_id (WebhookLog_insert l false db).2 k
  = Wallet_fetch_one_id db k.
Proof. reflexivity. Qed.

(** A signed event that is no settlement of an open transaction is
    acknowledged and leaves the committed ledger as it was. *)
Lemma webhook_idle (request : Request) (payload : Payload) (db : Session) :
  validly_signed verify request →
  json request = Some payload →
  event payload ≠ Some "charge.success"
  ∨ falsy (ev_reference (data payload)) = true
  ∨ Transaction_fetch_one_reference (new_session db)
      (default "" (ev_reference (data payload))) = None
  ∨ (∃ i x,
       Transaction_fetch_one_reference (new_session db)
         (default "" (ev_reference (data payload))) = Some (i, x)
       ∧ (Transaction.status x = SUCCESS
          ∨ ev_status (data payload) ≠ Some "success")) →
  ∃ db',
    serve verify (Webhook request) db = (Acknowledged, db')
    ∧ same_ledger (durable db') (durable db).
Proof.
  intros Hsigned Hjson Hcase. cbn [serve].
  rewrite (paystack_webhook_signed _ _ _ _ Hsigned Hjson). cbn zeta.
  destruct (is_string (event payload) "charge.success") eqn:Hevent.
  - rewrite charge_success_idle.
    + eexists. split; [reflexivity|]. by split.
    + rewrite !fetch_reference_recorded.
      destruct Hcase as [Hcase|Hcase]; [|done].
      by apply is_string_true in Hevent.
  - eexists. split; [reflexivity|]. by split.
Qed.

(** A signed settlement of an open transaction is acknowledged; its one
    commit carries the credited wallet, the marked row and the processed
    log entry together. *)
Lemma webhook_settles (request : Request) (payload : Payload)
    (db : Session) (r : string) (a : Z) (i j : nat) (x : Transaction.t) (w : Wallet.t) :
  validly_signed verify request →
  json request = Some payload →
  reports_settlement payload →
  ev_reference (data payload) = Some r → r ≠ "" →
  ev_amount (data payload) = Some a →
  Transaction_fetch_one_reference (new_session db) r = Some (i, x) →
  Transaction.status x ≠ SUCCESS →
  Wallet_fetch_one_id (new_session db) (Transaction.wallet_id x) = Some (j, w) →
  ∃ db',
    serve verify (Webhook request) db = (Acknowledged, db')
    ∧ wallets (durable db') = <[j := Wallet.credit w a]> (wallets (durable db))
    ∧ transactions (durable db') =
        <[i := Transaction.set_extra (EventExtra (data payload))
                 (Transaction.set_status SUCCESS x)]> (transactions (durable db))
    ∧ webhook_logs (durable db') =
        webhook_logs (durable db) ++ [WebhookLog.mk "paystack" payload (headers request) true]
    ∧ commit_points db' = work db' :: commit_points db.
Proof.
  intros Hsigned Hjson [Hevent Hstatus] Hr Hne Ha Hx Hopen Hw. cbn [serve].
  rewrite (paystack_webhook_signed _ _ _ _ Hsigned Hjson). cbn zeta.
  apply is_string_true in Hevent. rewrite Hevent.
  erewrite charge_success_settles by
    (rewrite ?fetch_reference_recorded, ?fetch_wallet_recorded; eassumption).
  eexists. split; [reflexivity|]. cbn.
  split_and!; try reflexivity. by rewrite alter_last.
Qed.

(** C10: a validly signed charge.success event whose data.status is
    "success" and whose reference finds a PENDING transaction credits the
    wallet of that transaction by the amount field of the event, whatever
    that amount is: it is compared neither with the amount stored on the
    row nor with zero.  The row keeps its amount, takes the event data as
    its metadata and becomes SUCCESS; no other wallet and no other row
    changes. *)
Theorem settlement_credits_event_amount (request : Request)
    (payload : Payload) (db : Session) (r : string) (a : Z) (i j : nat)
    (x : Transaction.t) (w : Wallet.t) :
  validly_signed verify request →
  json request = Some payload →
  reports_settlement payload →
  ev_reference (data payload) = Some r → r ≠ "" →
  ev_amount (data payload) = Some a →
  Transaction_fetch_one_reference (new_session db) r = Some (i, x) →
  Transaction.status x = PENDING →
  Wallet_fetch_one_id (new_session db) (Transaction.wallet_id x)
    = Some (j, w) →
  ∃ x' w' db',
    serve verify (Webhook request) db = (Acknowledged, db')
    ∧ wallets (durable db') !! j = Some w'
    ∧ Wallet.balance w' = Wallet.balance w + a
    ∧ (∀ k, k ≠ j → wallets (durable db') !! k = wallets (durable db) !! k)
    ∧ transactions (durable db') !! i = Some x'
    ∧ Transaction.amount x' = Transaction.amount x
    ∧ Transaction.status x' = SUCCESS
    ∧ Transaction.extra x' = EventExtra (data payload)
    ∧ (∀ k, k ≠ i →
         transactions (durable db') !! k = transactions (durable db) !! k).
Proof.
  intros Hsigned Hjson Hsettle Hr Hne Ha Hx Hpending Hw.
  destruct (webhook_settles request payload db r a i j x w)
    as (db' & Hserve & Hws & Hts & _); try done; [congruence|].
  destruct (list_find_lookup _ _ _ _ Hx) as [Hi _].
  destruct (list_find_lookup _ _ _ _ Hw) as [Hj _].
  do 2 eexists. exists db'. split; [done|]. rewrite Hws, Hts.
  split_and!.
  - apply list_lookup_insert_eq. eauto using lookup_lt_Some.
  - reflexivity.
  - intros k Hk. by rewrite list_lookup_insert_ne.
  - apply list_lookup_insert_eq. eauto using lookup_lt_Some.
  - reflexivity.
  - reflexivity.
  - reflexivity.
  - intros k Hk. by rewrite list_lookup_insert_ne.
Qed.

(** C1: delivering the same signed successful charge.success event twice
    for a PENDING transaction credits the wallet once.  The first delivery
    is acknowledged, turns the row from PENDING to SUCCESS and leaves the
    wallet with its balance plus the event amount; the second delivery is
    acknowledged as well and leaves every wallet and every transaction of
    the committed ledger as the first one left them, so that the balance
    is still the old one plus the amount, once, and the row still
    SUCCESS. *)
Theorem replayed_settlement_credits_once (request : Request)
    (payload : Payload) (db : Session) (r : string) (a : Z) (i j : nat)
    (x : Transaction.t) (w : Wallet.t) :
  validly_signed verify request →
  json request = Some payload →
  reports_settlement payload →
  ev_reference (data payload) = Some r → r ≠ "" →
  ev_amount (data payload) = Some a →
  Transaction_fetch_one_reference (new_session db) r = Some (i, x) →
  Transaction.status x = PENDING →
  Wallet_fetch_one_id (new_session db) (Transaction.wallet_id x)
    = Some (j, w) →
  ∃ db1 db2 w1 x1,
    serve verify (Webhook request) db = (Acknowledged, db1)
    ∧ serve verify (Webhook request) db1 = (Acknowledged, db2)
    ∧ wallets (durable db1) = <[j := w1]> (wallets (durable db))
    ∧ Wallet.balance w1 = Wallet.balance w + a
    ∧ same_account w w1
    ∧ transactions (durable db1) = <[i := x1]> (transactions (durable db))
    ∧ Transaction.status x1 = SUCCESS
    ∧ same_entry x x1
    ∧ Transaction.extra x1 = EventExtra (data payload)
    ∧ wallets (durable db2) = wallets (durable db1)
    ∧ transactions (durable db2) = transactions (durable db1)
    ∧ wallets (durable db2) !! j = Some w1
    ∧ transactions (durable db2) !! i = Some x1.
Proof.
  intros Hsigned Hjson Hsettle Hr Hne Ha Hx Hpending Hw.
  destruct (webhook_settles request payload db r a i j x w)
    as (db1 & Hfirst & Hws & Hts & _); try done; [congruence|].
  destruct (webhook_idle request payload db1)
    as (db2 & Hsecond & Hsame_w & Hsame_t); try done.
  { do 3 right.
    exists i, (Transaction.set_extra (EventExtra (data payload))
                 (Transaction.set_status SUCCESS x)).
    split; [|by left].
    - rewrite Hr. cbn [default from_option id].
      unfold Transaction_fetch_one_reference.
      cbn [new_session set_work work].
      rewrite Hts. apply (list_find_overwrite _ _ _ x); [exact Hx|].
      by destruct (list_find_lookup _ _ _ _ Hx). }
  destruct (list_find_lookup _ _ _ _ Hx) as [Hi _].
  destruct (list_find_lookup _ _ _ _ Hw) as [Hj _].
  exists db1, db2, (Wallet.credit w a),
    (Transaction.set_extra (EventExtra (data payload))
       (Transaction.set_status SUCCESS x)).
  split_and!; try done; try (by repeat split).
  - rewrite Hsame_w, Hws. apply list_lookup_insert_eq.
    eauto using lookup_lt_Some.
  - rewrite Hsame_t, Hts. apply list_lookup_insert_eq.
    eauto using lookup_lt_Some.
Qed.

(** C5, as the route has it: a signed event that carries the reference of
    a SUCCESS transaction, or of a FAILED transaction unless the event is a
    charge.success reporting success, or a reference that matches no
    transaction, is acknowledged and changes neither a transaction nor a
    wallet of the committed ledger. *)
Theorem settled_reference_idle (request : Request) (payload : Payload)
    (db : Session) (r : string) :
  validly_signed verify request →
  json request = Some payload →
  ev_reference (data payload) = Some r →
  match Transaction_fetch_one_reference (new_session db) r with
  | None => True
  | Some (_, x) =>
      Transaction.status x = SUCCESS
      ∨ (Transaction.status x = FAILED ∧ ¬ reports_settlement payload)
  end →
  ∃ db',
    serve verify (Webhook request) db = (Acknowledged, db')
    ∧ wallets (durable db') = wallets (durable db)
    ∧ transactions (durable db') = transactions (durable db).
Proof.
  intros Hsigned Hjson Hr Hcase.
  apply (webhook_idle request payload db Hsigned Hjson).
  rewrite Hr. cbn [default from_option id].
  destruct (Transaction_fetch_one_reference (new_session db) r)
    as [[i x]|]; [|by do 2 right; left].
  destruct Hcase as [Hx|[_ Hnot]]; [do 3 right; eauto 6|].
  destruct (decide (event payload = Some "charge.success")) as [He|He];
    [|by left].
  do 3 right. exists i, x. split; [done|]. right. intros Hs.
  by apply Hnot.
Qed.
(** Whatever the branch does, the log row it was entered with is still the
    last one of the session, and an acknowledged run has committed it,
    marked as processed, in the only commit of the request. *)
Lemma charge_success_keeps_log (d : EventData) (db : Session)
    (logs : list WebhookLog.t) (entry : WebhookLog.t) :
  webhook_logs (work db) = logs ++ [entry] →
  ∃ entry',
    webhook_logs (work (charge_success d (length logs) db).2)
      = logs ++ [entry']
    ∧ WebhookLog.provider entry' = WebhookLog.provider entry
    ∧ WebhookLog.payload entry' = WebhookLog.payload entry
    ∧ WebhookLog.headers entry' = WebhookLog.headers entry
    ∧ ((charge_success d (length logs) db).1 = Acknowledged →
       WebhookLog.processed entry' = true
       ∧ durable (charge_success d (length logs) db).2
           = work (charge_success d (length logs) db).2
       ∧ commit_points (charge_success d (length logs) db).2
           = work (charge_success d (length logs) db).2 :: commit_points db).
Proof.
  intros Hlogs. unfold charge_success.
  repeat case_match; simplify_eq; cbn [fst snd]; cbn; rewrite Hlogs;
    rewrite ?alter_last; eexists; (split; [reflexivity|]);
    split_and!; try done; intros ?; simplify_eq;
    split_and!; try done;
    unfold commit_points, commit, WebhookLog_mark_processed, Wallet_store,
      Transaction_store, set_work; cbn; by rewrite ?Hlogs, ?alter_last.
Qed.

(** C7, as the route has it: for every webhook whose signature verifies
    (and whose body parses), whatever the type of the event, a log row
    with the provider, the payload and the headers of the request joins the
    session before the event is looked at.  For a charge.success event that
    is acknowledged the row becomes durable, with its processed flag set,
    in the one commit of the request, the commit that also carries the
    update of the transaction and of the wallet when there is one. *)
Theorem webhook_event_recorded (request : Request) (payload : Payload)
    (db : Session) :
  validly_signed verify request →
  json request = Some payload →
  ∃ response db' entry,
    serve verify (Webhook request) db = (response, db')
    ∧ webhook_logs (work db') = webhook_logs (durable db) ++ [entry]
    ∧ WebhookLog.provider entry = "paystack"
    ∧ WebhookLog.payload entry = payload
    ∧ WebhookLog.headers entry = headers request
    ∧ (event payload = Some "charge.success" →
       response = Acknowledged →
       WebhookLog.processed entry = true
       ∧ durable db' = work db'
       ∧ commit_points db' = work db' :: commit_points db).
Proof.
  intros Hsigned Hjson. cbn [serve].
  rewrite (paystack_webhook_signed _ _ _ _ Hsigned Hjson). cbn zeta.
  destruct (is_string (event payload) "charge.success") eqn:Hevent.
  - set (entry0 := WebhookLog.mk "paystack" payload (headers request) false).
    destruct (charge_success_keeps_log (data payload)
                (WebhookLog_insert entry0 false (new_session db)).2
                (webhook_logs (durable db)) entry0 eq_refl)
      as (entry & Hlast & Hprovider & Hpayload & Hheaders & Hack).
    change (WebhookLog_insert entry0 false (new_session db)).1
      with (length (webhook_logs (durable db))).
    destruct (charge_success _ _ _) as [response db'] eqn:Hrun.
    exists response, db', entry. split; [reflexivity|].
    by split_and!.
  - do 3 eexists. split; [reflexivity|]. cbn.
    split_and!; try reflexivity.
    intros He%is_string_true. congruence.
Qed.

End Reconciliation.

(** *** The balance invariant *)

Create HintDb ledger.

Lemma sound_commit (db : Session) : sound db → sound (commit db).
Proof.
  intros [Hwork Hpoints]. split; [done|].
  by apply Forall_cons.
Qed.

Lemma sound_flush (b : bool) (db : Session) : sound db → sound (flush b db).
Proof. destruct b; [apply sound_commit|done]. Qed.

Lemma sound_new_session (db : Session) :
  Forall solvent (commit_points db) → sound (new_session db).
Proof. intros Hpoints. split; [|done]. by inversion Hpoints. Qed.

Lemma sound_Transaction_store (i : nat) (x : Transaction.t) (db : Session) :
  sound db → sound (Transaction_store i x db).
Proof. by intros []. Qed.

Lemma sound_Transaction_insert (x : Transaction.t) (b : bool)
    (db db' : Session) (n : nat) :
  Transaction_insert x b db = (n, db') → sound db → sound db'.
Proof. intros [= _ <-] []. by apply sound_flush. Qed.

Lemma sound_WebhookLog_insert (l : WebhookLog.t) (b : bool)
    (db db' : Session) (n : nat) :
  WebhookLog_insert l b db = (n, db') → sound db → sound db'.
Proof. intros [= _ <-] []. by apply sound_flush. Qed.

Lemma sound_WebhookLog_mark_processed (i : nat) (db : Session) :
  sound db → sound (WebhookLog_mark_processed i db).
Proof. by intros []. Qed.

Lemma sound_Wallet_store (i : nat) (w : Wallet.t) (db : Session) :
  sound db → 0 ≤ Wallet.balance w → sound (Wallet_store i w db).
Proof.
  intros [Hwork Hpoints] Hw. split; [|done].
  by apply Forall_insert.
Qed.

Lemma found_solvent (P : Wallet.t → Prop) `{!∀ w, Decision (P w)}
    (db : Session) (i : nat) (w : Wallet.t) :
  sound db → list_find P (wallets (work db)) = Some (i, w) →
  0 ≤ Wallet.balance w.
Proof.
  intros [Hwork _] [Hi _]%list_find_lookup.
  by apply (Forall_lookup_1 _ _ _ _ Hwork Hi).
Qed.

#[export] Hint Resolve sound_commit sound_flush sound_Transaction_store
  sound_Transaction_insert sound_WebhookLog_insert
  sound_WebhookLog_mark_processed sound_Wallet_store : ledger.

Lemma deposit_to_wallet_sound (request : DepositRequest) (user : User)
    (hex : string) (tx_id : UUID) (reply : GatewayReply) (db : Session) :
  sound db → sound (deposit_to_wallet request user hex tx_id reply db).2.
Proof.
  intros Hdb. unfold deposit_to_wallet.
  repeat case_match; simplify_eq; cbn [snd]; eauto 8 with ledger.
Qed.

Lemma transfer_funds_sound (request : TransferRequest) (user : User)
    (hex : string) (debit_id credit_id : UUID) (db : Session) :
  sound db → sound (transfer_funds request user hex debit_id credit_id db).2.
Proof.
  intros Hdb. unfold transfer_funds.
  repeat case_match; simplify_eq; cbn [snd]; eauto 8 with ledger.
  match goal with
  | Hdebit : Wallet.debit _ _ = Some _,
    Hto : Wallet_fetch_one_wallet_number _ _ = Some _,
    Hamount : (_ <=? 0) = false |- _ =>
      unfold Wallet.debit in Hdebit; case_match; simplify_eq;
      pose proof (found_solvent _ _ _ _ Hdb Hto);
      apply Z.leb_gt in Hamount
  end.
  match goal with Hneg : (_ <? 0) = false |- _ => apply Z.ltb_ge in Hneg end.
  eapply sound_commit, sound_flush, sound_flush, sound_Transaction_insert;
    [done|].
  repeat apply sound_Wallet_store; eauto with ledger; cbn; lia.
Qed.

Section Invariant.

Variable verify : string → string → bool.

Lemma charge_success_sound (d : EventData) (log : nat) (db : Session) :
  sound db →
  (∀ a, ev_amount d = Some a → 0 ≤ a) →
  sound (charge_success d log db).2.
Proof.
  intros Hdb Hamount. unfold charge_success.
  repeat case_match; simplify_eq; cbn [fst snd]; eauto 8 with ledger.
  match goal with
  | Hwallet : Wallet_fetch_one_id _ _ = Some _ |- _ =>
      pose proof (found_solvent _ _ _ _ Hdb Hwallet)
  end.
  specialize (Hamount _ eq_refl).
  do 4 (first [apply sound_commit | apply sound_WebhookLog_mark_processed
              | apply sound_flush]).
  apply sound_Wallet_store; eauto with ledger. cbn. lia.
Qed.

Lemma paystack_webhook_sound (request : Request) (db : Session) :
  sound db →
  signed_amount_not_negative verify (Webhook request) →
  sound (paystack_webhook verify request db).2.
Proof.
  intros Hdb Hamount. unfold paystack_webhook.
  destruct (headers_get _ _) as [signature|] eqn:Hget; [|done].
  destruct (falsy (Some signature)) eqn:Hfalsy; [done|].
  cbn [default from_option id].
  destruct (verify _ _) eqn:Hok; [|done].
  assert (validly_signed verify request) as Hsigned.
  { exists signature. split_and!; [done| |done].
    intros ->. discriminate Hfalsy. }
  specialize (Hamount Hsigned). cbn [negb].
  repeat case_match; simplify_eq; cbn [snd]; eauto 8 with ledger.
  apply charge_success_sound; eauto with ledger.
Qed.

Lemma serve_sound (op : Operation) (db : Session) :
  Forall solvent (commit_points db) →
  signed_amount_not_negative verify op →
  sound (serve verify op db).2.
Proof.
  intros Hdb%sound_new_session Hop.
  destruct op; cbn [serve];
    auto using deposit_to_wallet_sound, transfer_funds_sound,
      paystack_webhook_sound.
Qed.

End Invariant.

(** ** The properties on the concrete ledger *)

Lemma signed_is_valid (payload : Payload) :
  validly_signed tagged (signed payload).
Proof. exists "sha512=raw". split_and!; [reflexivity|discriminate|reflexivity]. Defined.

Lemma forged_is_invalid (payload : Payload) :
  ¬ validly_signed tagged (forged payload).
Proof. intros (signature & [= <-] & _ & Hok). discriminate Hok. Defined.

(** A forged delivery of the settlement is refused and leaves the session
    alone. *)
Lemma unsigned_webhook_rejected_witness :
  ∃ status_code detail,
    paystack_webhook tagged (forged (settlement 700))
      (at_rest (ledger [open_deposit]))
    = (Raised (HTTPException status_code detail),
       at_rest (ledger [open_deposit]))
    ∧ (status_code = 400 ∧ detail = "Missing signature"
       ∨ status_code = 401 ∧ detail = "Invalid signature").
Proof.
  apply (unsigned_webhook_rejected tagged (forged (settlement 700))
           (at_rest (ledger [open_deposit]))).
  apply forged_is_invalid.
Defined.


(** After that transfer A holds 3000; a transfer of 4000 is refused. *)
Lemma transfer_beyond_balance_refused_witness :
  let after :=
    at_rest (mkStore [Wallet.set_balance 3000 wallet_A;
                      Wallet.set_balance 2000 wallet_B] [] []) in
  transfer_funds (mkTransferRequest "B-001" 4000) owner_A
    "8899aabbccddeeff" 102%N 103%N after
  = (fail_response 400 "Insufficient balance" 3000 4000, after).
Proof.
  apply (transfer_beyond_balance_refused (mkTransferRequest "B-001" 4000)
           owner_A "8899aabbccddeeff" 102%N 103%N
           (at_rest (mkStore [Wallet.set_balance 3000 wallet_A;
                              Wallet.set_balance 2000 wallet_B] [] []))
           0%nat (Wallet.set_balance 3000 wallet_A));
    [reflexivity|discriminate|reflexivity].
Defined.

(** A transfer from A to a wallet number nobody has. *)
Lemma transfer_rejects_first_violated_witness :
  transfer_funds (mkTransferRequest "Z-999" 2000) owner_A
    "0011223344556677" 100%N 101%N (at_rest (ledger []))
  = (Raised (HTTPException 404 "Recipient wallet not found"),
     at_rest (ledger [])).
Proof.
  apply (transfer_rejects_first_violated (mkTransferRequest "Z-999" 2000)
           owner_A "0011223344556677" 100%N 101%N (at_rest (ledger []))
           RecipientResolvable).
  reflexivity.
Defined.

(** C9, as stated, fails: A asks for more than it holds, once naming its
    own wallet and once naming no wallet at all.  In the stated order the
    first violated precondition is the one on the recipient, yet the route
    answers "Insufficient balance" both times. *)
Lemma stated_order_counterexample :
  let db := at_rest (ledger []) in
  let to_self := mkTransferRequest "A-001" 6000 in
  let to_nobody := mkTransferRequest "Z-999" 6000 in
  first_violated stated_order to_self owner_A db = Some RecipientDistinct
  ∧ first_violated stated_order to_nobody owner_A db
      = Some RecipientResolvable
  ∧ transfer_funds to_self owner_A "0011223344556677" 100%N 101%N db
      = (fail_response 400 "Insufficient balance" 5000 6000, db)
  ∧ transfer_funds to_nobody owner_A "0011223344556677" 100%N 101%N db
      = (fail_response 400 "Insufficient balance" 5000 6000, db)
  ∧ fail_response 400 "Insufficient balance" 5000 6000
      ≠ rejection RecipientDistinct to_self owner_A db
  ∧ fail_response 400 "Insufficient balance" 5000 6000
      ≠ rejection RecipientResolvable to_nobody owner_A db.
Proof. cbn zeta. split_and!; try reflexivity; discriminate. Qed.

(** A deposit of 700 by the owner of B whose gateway call times out. *)
Lemma failed_initiation_marks_failed_witness :
  ∃ e pending failed row db',
    deposit_to_wallet (mkDepositRequest 700) owner_B "0123456789abcdef" 7%N
      (GatewayRaised (PythonError "TimeoutException")) (at_rest (ledger []))
    = (Raised (PaymentInitializationFailed e), db')
    ∧ commit_points db' = failed :: pending :: [ledger []]
    ∧ work db' = failed
    ∧ transactions pending = [] ++ [open_deposit]
    ∧ transactions failed = [] ++ [row]
    ∧ Transaction.status row = FAILED
    ∧ same_entry open_deposit row
    ∧ Transaction.extra row = NoExtra
    ∧ wallets pending = [wallet_A; wallet_B]
    ∧ wallets failed = [wallet_A; wallet_B].
Proof.
  apply (failed_initiation_marks_failed (mkDepositRequest 700) owner_B
           "0123456789abcdef" 7%N
           (GatewayRaised (PythonError "TimeoutException"))
           (at_rest (ledger [])) 1%nat wallet_B);
    [discriminate|reflexivity|discriminate].
Defined.

(** The gateway confirms the open deposit with 900 where 700 was asked:
    wallet B gets 900, the row still says 700. *)
Lemma settlement_credits_event_amount_witness :
  ∃ x' w' db',
    serve tagged (Webhook (signed (settlement 900)))
      (at_rest (ledger [open_deposit])) = (Acknowledged, db')
    ∧ wallets (durable db') !! 1%nat = Some w'
    ∧ Wallet.balance w' = 0 + 900
    ∧ (∀ k, k ≠ 1%nat →
         wallets (durable db') !! k = [wallet_A; wallet_B] !! k)
    ∧ transactions (durable db') !! 0%nat = Some x'
    ∧ Transaction.amount x' = 700
    ∧ Transaction.status x' = SUCCESS
    ∧ Transaction.extra x' = EventExtra (data (settlement 900))
    ∧ (∀ k, k ≠ 0%nat →
         transactions (durable db') !! k = [open_deposit] !! k).
Proof.
  apply (settlement_credits_event_amount tagged (signed (settlement 900))
           (settlement 900) (at_rest (ledger [open_deposit]))
           "dep_0123456789abcdef" 900 0%nat 1%nat open_deposit wallet_B);
    [apply signed_is_valid|reflexivity|by split|reflexivity|discriminate
    |reflexivity|reflexivity|reflexivity|reflexivity].
Defined.

(** The confirmation of the open deposit, delivered twice. *)
Lemma replayed_settlement_credits_once_witness :
  ∃ db1 db2 w1 x1,
    serve tagged (Webhook (signed (settlement 700)))
      (at_rest (ledger [open_deposit])) = (Acknowledged, db1)
    ∧ serve tagged (Webhook (signed (settlement 700))) db1
        = (Acknowledged, db2)
    ∧ wallets (durable db1) = <[1%nat := w1]> [wallet_A; wallet_B]
    ∧ Wallet.balance w1 = 0 + 700
    ∧ same_account wallet_B w1
    ∧ transactions (durable db1) = <[0%nat := x1]> [open_deposit]
    ∧ Transaction.status x1 = SUCCESS
    ∧ same_entry open_deposit x1
    ∧ Transaction.extra x1 = EventExtra (data (settlement 700))
    ∧ wallets (durable db2) = wallets (durable db1)
    ∧ transactions (durable db2) = transactions (durable db1)
    ∧ wallets (durable db2) !! 1%nat = Some w1
    ∧ transactions (durable db2) !! 0%nat = Some x1.
Proof.
  apply (replayed_settlement_credits_once tagged (signed (settlement 700))
           (settlement 700) (at_rest (ledger [open_deposit]))
           "dep_0123456789abcdef" 700 0%nat 1%nat open_deposit wallet_B);
    [apply signed_is_valid|reflexivity|by split|reflexivity|discriminate
    |reflexivity|reflexivity|reflexivity|reflexivity].
Defined.

(** A confirmation for a deposit whose initiation failed, in an event that
    is no charge.success. *)
Lemma settled_reference_idle_witness :
  ∃ db',
    serve tagged (Webhook (signed refund_notice))
      (at_rest (ledger [Transaction.set_status FAILED open_deposit]))
    = (Acknowledged, db')
    ∧ wallets (durable db') = [wallet_A; wallet_B]
    ∧ transactions (durable db')
        = [Transaction.set_status FAILED open_deposit].
Proof.
  apply (settled_reference_idle tagged (signed refund_notice) refund_notice
           (at_rest (ledger [Transaction.set_status FAILED open_deposit]))
           "dep_0123456789abcdef");
    [apply signed_is_valid|reflexivity|reflexivity|].
  right. split; [reflexivity|]. intros [Hevent _]. discriminate Hevent.
Defined.

(** C5, as stated, fails on a FAILED transaction: a signed charge.success
    event reporting success moves it to SUCCESS and credits its wallet. *)
Lemma failed_deposit_settled_counterexample :
  let failed := Transaction.set_status FAILED open_deposit in
  let db' :=
    (serve tagged (Webhook (signed (settlement 700)))
       (at_rest (ledger [failed]))).2 in
  Transaction.status failed = FAILED
  ∧ Transaction.status <$> transactions (durable db') !! 0%nat = Some SUCCESS
  ∧ Wallet.balance <$> wallets (ledger [failed]) !! 1%nat = Some 0
  ∧ Wallet.balance <$> wallets (durable db') !! 1%nat = Some 700.
Proof. cbn zeta. split_and!; reflexivity. Qed.

(** The confirmation of the open deposit: the log row is there, processed,
    in the one commit of the request. *)
Lemma webhook_event_recorded_witness :
  ∃ response db' entry,
    serve tagged (Webhook (signed (settlement 700)))
      (at_rest (ledger [open_deposit])) = (response, db')
    ∧ webhook_logs (work db') = [] ++ [entry]
    ∧ WebhookLog.provider entry = "paystack"
    ∧ WebhookLog.payload entry = settlement 700
    ∧ WebhookLog.headers entry = headers (signed (settlement 700))
    ∧ (event (settlement 700) = Some "charge.success" →
       response = Acknowledged →
       WebhookLog.processed entry = true
       ∧ durable db' = work db'
       ∧ commit_points db' = work db' :: [ledger [open_deposit]]).
Proof.
  apply (webhook_event_recorded tagged (signed (settlement 700))
           (settlement 700) (at_rest (ledger [open_deposit])));
    [apply signed_is_valid|reflexivity].
Defined.

(** C7, as stated, fails twice over.  A signed event of another type is
    acknowledged without a commit, so its log row never becomes durable.
    And the confirmation of the open deposit reaches one new commit point
    only, which holds the log row together with the credit: at no commit
    point is the row durable while the wallet is still uncredited, and the
    row is durable as processed no later than the transaction update. *)
Lemma webhook_log_counterexample :
  let db := at_rest (ledger [open_deposit]) in
  let other := (serve tagged (Webhook (signed refund_notice)) db) in
  let settled := (serve tagged (Webhook (signed (settlement 700))) db).2 in
  other.1 = Acknowledged
  ∧ webhook_logs (durable other.2) = []
  ∧ commit_points other.2 = commit_points db
  ∧ WebhookLog.processed <$> webhook_logs (work other.2) = [false]
  ∧ commit_points settled = [durable settled; durable db]
  ∧ webhook_logs (durable db) = []
  ∧ WebhookLog.processed <$> webhook_logs (durable settled) = [true]
  ∧ Wallet.balance <$> wallets (durable settled) = [5000; 700]
  ∧ Transaction.status <$> transactions (durable settled) = [SUCCESS].
Proof. cbn zeta. split_and!; reflexivity. Qed.


(** ** Further properties of the routes *)

(** *** How the ledger evolves *)

Lemma same_entry_refl (x : Transaction.t) : same_entry x x.
Proof. by repeat split. Qed.

Lemma continues_refl (ts : list Transaction.t) : continues ts ts.
Proof.
  intros k x Hk. exists x. split_and!; auto using same_entry_refl.
Qed.

Lemma continues_trans (ts1 ts2 ts3 : list Transaction.t) :
  continues ts1 ts2 → continues ts2 ts3 → continues ts1 ts3.
Proof.
  intros H12 H23 k x Hk.
  destruct (H12 k x Hk) as (y & Hy & Hxy & Hkeep & Hstatus).
  destruct (H23 k y Hy) as (z & Hz & Hyz & Hkeep' & Hstatus').
  exists z. split_and!; [done| | |].
  - unfold same_entry in *. destruct_and!. split_and!; congruence.
  - intros Hx. rewrite (Hkeep Hx) in *. auto.
  - destruct Hstatus as [<-|Hy_ok]; [done|]. right.
    destruct Hstatus' as [->|]; done.
Qed.

Lemma continues_app (ts more : list Transaction.t) : continues ts (ts ++ more).
Proof.
  intros k x Hk. exists x.
  split_and!; auto using same_entry_refl, lookup_app_l_Some.
Qed.

(** Writing to a position beyond the old table. *)
Lemma continues_insert_beyond (ts ts' : list Transaction.t) (k : nat)
    (x : Transaction.t) :
  continues ts ts' → (length ts ≤ k)%nat → continues ts (<[k := x]> ts').
Proof.
  intros Hcont Hk i y Hi.
  destruct (Hcont i y Hi) as (z & Hz & Hrest). exists z.
  split; [|done]. rewrite list_lookup_insert_ne; [done|].
  apply lookup_lt_Some in Hi. lia.
Qed.

(** Settling the row at position [i]. *)
Lemma continues_settle (ts : list Transaction.t) (i : nat)
    (x : Transaction.t) (e : Extra) :
  ts !! i = Some x → Transaction.status x ≠ SUCCESS →
  continues ts
    (<[i := Transaction.set_extra e (Transaction.set_status SUCCESS x)]> ts).
Proof.
  intros Hi Hopen k y Hk. destruct (decide (k = i)) as [->|Hne].
  - rewrite list_lookup_insert_eq by eauto using lookup_lt_Some.
    eexists. split; [done|]. simplify_eq.
    split_and!; [by repeat split|done|by right].
  - rewrite list_lookup_insert_ne by done. exists y.
    split_and!; auto using same_entry_refl.
Qed.

Lemma same_account_refl (w : Wallet.t) : same_account w w.
Proof. by repeat split. Qed.

Lemma same_accounts_refl (ws : list Wallet.t) : Forall2 same_account ws ws.
Proof. apply Forall_Forall2_diag, Forall_forall. auto using same_account_refl. Qed.

(** Replacing a wallet by the same wallet with another balance. *)
Lemma same_accounts_insert (ws ws' : list Wallet.t) (i : nat)
    (w : Wallet.t) (b : Z) :
  Forall2 same_account ws ws' → ws !! i = Some w →
  Forall2 same_account ws (<[i := Wallet.set_balance b w]> ws').
Proof.
  intros Hall Hi. apply Forall2_same_length_lookup.
  split; [rewrite length_insert; by eapply Forall2_length|].
  intros k v v' Hv Hv'. destruct (decide (k = i)) as [->|Hne].
  - rewrite list_lookup_insert_eq in Hv'.
    + simplify_eq. by repeat split.
    + rewrite <- (Forall2_length _ _ _ Hall). eauto using lookup_lt_Some.
  - rewrite list_lookup_insert_ne in Hv' by done.
    by eapply Forall2_lookup_lr.
Qed.

Lemma total_insert (ws : list Wallet.t) (i : nat) (w w' : Wallet.t)
    (s : Store) :
  ws !! i = Some w →
  total (set_wallets (<[i := w']> ws) s)
  = total (set_wallets ws s) - Wallet.balance w + Wallet.balance w'.
Proof.
  unfold total. cbn [wallets set_wallets].
  revert i. induction ws as [|v ws IH]; intros [|i] Hi;
    simplify_eq/=; [lia|]. rewrite (IH i Hi). lia.
Qed.

Ltac run_route :=
  unfold deposit_to_wallet, paystack_webhook, charge_success, transfer_funds,
    Transaction_insert, WebhookLog_insert, Wallet.debit;
  cbn -[Z.ltb Z.leb Z.add Z.sub];
  repeat (case_match; simplify_eq;
          cbn -[Z.ltb Z.leb Z.add Z.sub] in * ).

(** What a successful search says about the table. *)
Ltac found :=
  repeat match goal with
  | H : list_find _ _ = Some _ |- _ => apply list_find_lookup in H as [? ?]
  | H : Wallet_fetch_one_user_id _ _ = Some _ |- _ =>
      apply list_find_lookup in H as [? ?]
  | H : Wallet_fetch_one_id _ _ = Some _ |- _ =>
      apply list_find_lookup in H as [? ?]
  | H : Wallet_fetch_one_wallet_number _ _ = Some _ |- _ =>
      apply list_find_lookup in H as [? ?]
  | H : Transaction_fetch_one_reference _ _ = Some _ |- _ =>
      apply list_find_lookup in H as [? ?]
  end.

Section Evolution.

Variable verify : string → string → bool.

Lemma serve_continues (op : Operation) (db : Session) :
  continues (transactions (durable db))
    (transactions (durable (serve verify op db).2)).
Proof.
  destruct op; cbn [serve]; run_route; try apply continues_refl; found.
  - apply continues_insert_beyond; [apply continues_app|done].
  - apply continues_app.
  - by apply continues_settle.
  - by apply continues_settle.
  - eapply continues_trans; [|apply continues_app].
    apply continues_insert_beyond; [apply continues_app|done].
Qed.

Lemma serve_same_accounts (op : Operation) (db : Session) :
  Forall2 same_account (wallets (durable db))
    (wallets (durable (serve verify op db).2)).
Proof.
  destruct op; cbn [serve]; run_route; try apply same_accounts_refl; found.
  - by apply same_accounts_insert; [apply same_accounts_refl|].
  - unfold Wallet.credit.
    do 2 (apply same_accounts_insert; [|done]). apply same_accounts_refl.
Qed.

(** A transfer or a deposit initiation moves no money in or out. *)
Lemma serve_total (op : Operation) (db : Session) :
  (∀ request, op ≠ Webhook request) →
  total (durable (serve verify op db).2) = total (durable db).
Proof.
  intros Hop. destruct op; [|by destruct (Hop request)|];
    cbn [serve]; run_route; try done; found.
  cbn [new_session set_work work] in *.
  match goal with
  | Hs : wallets (durable db) !! ?i = Some ?s,
    Hr : wallets (durable db) !! ?j = Some ?r |- _ =>
      assert (i ≠ j) by (intros ->; congruence);
      change (total (set_wallets
                (<[j := Wallet.credit r (transfer_amount request)]>
                   (<[i := Wallet.set_balance
                             (Wallet.balance s - transfer_amount request) s]>
                      (wallets (durable db)))) (durable db))
              = total (durable db));
      rewrite (total_insert _ j r) by (by rewrite list_lookup_insert_ne);
      rewrite (total_insert _ i s) by done
  end.
  replace (set_wallets (wallets (durable db)) (durable db))
    with (durable db) by (by destruct (durable db)).
  cbn. lia.
Qed.

Lemma same_accounts_trans (ws1 ws2 ws3 : list Wallet.t) :
  Forall2 same_account ws1 ws2 → Forall2 same_account ws2 ws3 →
  Forall2 same_account ws1 ws3.
Proof.
  intros H12 H23. eapply Forall2_trans; [|done..].
  unfold same_account. intros x y z ? ?. destruct_and!.
  split_and!; congruence.
Qed.


(** X2: over any sequence of requests the committed wallet table keeps its
    rows: no wallet is created or removed, and every wallet keeps its key,
    its owner, its wallet number and its currency; balances only may
    differ. *)
Theorem wallets_persist (ops : list Operation) (db : Session) :
  Forall2 same_account (wallets (durable db))
    (wallets (durable (serve_all verify ops db))).
Proof.
  revert db. induction ops as [|op ops IH]; intros db;
    [apply same_accounts_refl|].
  cbn. eapply same_accounts_trans; [apply serve_same_accounts|apply IH].
Qed.

(** X3: a sequence of transfers and deposit initiations, whatever their
    outcomes, leaves the sum of all committed balances as it was: money
    enters the ledger through webhooks only. *)
Theorem total_conserved (ops : list Operation) (db : Session) :
  Forall (λ op, ∀ request, op ≠ Webhook request) ops →
  total (durable (serve_all verify ops db)) = total (durable db).
Proof.
  intros Hops. revert db.
  induction Hops as [|op ops Hop _ IH]; intros db; [done|].
  change (serve_all verify (op :: ops) db)
    with (serve_all verify ops (serve verify op db).2).
  rewrite IH. by apply serve_total.
Qed.

(** X4: a webhook delivery changes the sum of all committed balances by
    the amount its event names, or not at all. *)
Theorem webhook_total (request : Request) (db : Session) :
  total (durable (serve verify (Webhook request) db).2) = total (durable db)
  ∨ ∃ payload a,
      json request = Some payload
      ∧ ev_amount (data payload) = Some a
      ∧ total (durable (serve verify (Webhook request) db).2)
          = total (durable db) + a.
Proof.
  cbn [serve]; run_route; try (by left); found.
  right. do 2 eexists. split_and!; [done..|].
  cbn [new_session set_work work] in *.
  match goal with
  | Hw : wallets (durable db) !! ?j = Some ?w |- _ =>
      change (total (set_wallets
                (<[j := Wallet.credit w z]> (wallets (durable db)))
                (durable db)) = total (durable db) + z);
      rewrite (total_insert _ j w) by done
  end.
  replace (set_wallets (wallets (durable db)) (durable db))
    with (durable db) by (by destruct (durable db)).
  cbn. lia.
Qed.

(** X5: a validly signed event of any type other than charge.success is
    acknowledged without a commit: the committed state, its webhook log
    included, is exactly what it was. *)
Theorem other_event_commits_nothing (request : Request) (payload : Payload)
    (db : Session) :
  validly_signed verify request →
  json request = Some payload →
  event payload ≠ Some "charge.success" →
  ∃ db',
    serve verify (Webhook request) db = (Acknowledged, db')
    ∧ durable db' = durable db
    ∧ commit_points db' = commit_points db.
Proof.
  intros Hsigned Hjson Hevent%is_string_false. cbn [serve].
  rewrite (paystack_webhook_signed _ _ _ _ Hsigned Hjson). cbn zeta.
  rewrite Hevent. eexists. by split_and!.
Qed.

(** X6: a validly signed charge.success event reporting success for an
    unsettled transaction whose wallet does not resolve still marks the
    transaction SUCCESS; no wallet is credited, whatever amount the event
    names or omits. *)
Theorem settlement_without_wallet (request : Request) (payload : Payload)
    (db : Session) (r : string) (i : nat) (x : Transaction.t) :
  validly_signed verify request →
  json request = Some payload →
  reports_settlement payload →
  ev_reference (data payload) = Some r → r ≠ "" →
  Transaction_fetch_one_reference (new_session db) r = Some (i, x) →
  Transaction.status x ≠ SUCCESS →
  Wallet_fetch_one_id (new_session db) (Transaction.wallet_id x) = None →
  ∃ db' x',
    serve verify (Webhook request) db = (Acknowledged, db')
    ∧ transactions (durable db') = <[i := x']> (transactions (durable db))
    ∧ transactions (durable db') !! i = Some x'
    ∧ Transaction.status x' = SUCCESS
    ∧ same_entry x x'
    ∧ Transaction.extra x' = EventExtra (data payload)
    ∧ wallets (durable db') = wallets (durable db).
Proof.
  intros Hsigned Hjson [Hevent Hstatus] Hr Hne Hx Hopen Hw. cbn [serve].
  destruct (list_find_lookup _ _ _ _ Hx) as [Hi _].
  rewrite (paystack_webhook_signed _ _ _ _ Hsigned Hjson). cbn zeta.
  apply is_string_true in Hevent, Hstatus. rewrite Hevent.
  unfold charge_success. rewrite Hr, (falsy_Some _ Hne).
  cbn [default from_option id WebhookLog_insert flush fst snd].
  change (Transaction_fetch_one_reference (set_work ?s (new_session db)) r)
    with (Transaction_fetch_one_reference (new_session db) r).
  rewrite Hx, decide_False, Hstatus by done.
  change (Wallet_fetch_one_id (Transaction_store i ?t ?d) ?k)
    with (Wallet_fetch_one_id (new_session db) (Transaction.wallet_id x)).
  rewrite Hw.
  eexists _, (Transaction.set_extra (EventExtra (data payload))
                (Transaction.set_status SUCCESS x)).
  split_and!; try done; try (by repeat split).
  cbn. apply list_lookup_insert_eq. eauto using lookup_lt_Some.
Qed.

End Evolution.

(** *** Reading after writing *)

(** A search finds the same position in a table whose rows satisfy the
    predicate exactly where the rows of the first table do. *)
Lemma list_find_alike {A} (P : A → Prop) `{!∀ x, Decision (P x)}
    (l l' : list A) (i : nat) (x : A) :
  Forall2 (λ a b, P a ↔ P b) l l' →
  list_find P l = Some (i, x) →
  ∃ y, l' !! i = Some y ∧ list_find P l' = Some (i, y).
Proof.
  intros Hall (Hi & HP & Hleast)%list_find_Some.
  destruct (Forall2_lookup_l _ _ _ _ _ Hall Hi) as (y & Hy & Hxy).
  exists y. split; [done|]. apply list_find_Some. split_and!; [done|tauto|].
  intros j z Hz Hlt HPz.
  destruct (Forall2_lookup_r _ _ _ _ _ Hall Hz) as (z0 & Hz0 & Hzz).
  apply (Hleast j z0); tauto.
Qed.

Lemma same_accounts_alike_user (u : UUID) (ws ws' : list Wallet.t) :
  Forall2 same_account ws ws' →
  Forall2 (λ a b, Wallet.user_id a = u ↔ Wallet.user_id b = u) ws ws'.
Proof.
  intros Hall. eapply Forall2_impl; [exact Hall|].
  intros a b (_ & Hu & _). by rewrite Hu.
Qed.

Section Reading.

Variable verify : string → string → bool.

(** The committed ledger after a transfer that passes every check. *)
Lemma transfer_committed (request : TransferRequest) (user : User)
    (hex : string) (debit_id credit_id : UUID) (db : Session)
    (i j : nat) (X Y : Wallet.t) :
  let a := transfer_amount request in
  let db' :=
    (serve verify (Transfer request user hex debit_id credit_id) db).2 in
  Wallet_fetch_one_user_id (new_session db) (user_id user) = Some (i, X) →
  Wallet_fetch_one_wallet_number (new_session db)
    (transfer_wallet_number request) = Some (j, Y) →
  Wallet.id Y ≠ Wallet.id X →
  0 < a → a ≤ Wallet.balance X →
  wallets (durable db')
    = <[j := Wallet.set_balance (Wallet.balance Y + a) Y]>
        (<[i := Wallet.set_balance (Wallet.balance X - a) X]>
           (wallets (durable db)))
  ∧ transactions (durable db')
    = transactions (durable db)
      ++ [debit_row request user hex debit_id credit_id X;
          credit_row request hex debit_id credit_id X Y].
Proof.
  intros a db' HX HY Hid Hpos Hcover.
  subst db'. cbn [serve]. unfold transfer_funds. fold a. rewrite HX, HY.
  destruct (Z.leb_spec a 0) as [|_]; [lia|].
  destruct (Z.ltb_spec (Wallet.balance X) a) as [|_]; [lia|].
  rewrite decide_False by done. unfold Wallet.debit.
  destruct (Z.ltb_spec (Wallet.balance X - a) 0) as [|_]; [lia|].
  split; [reflexivity|]. cbn.
  rewrite insert_last, <- app_assoc. cbn.
  reflexivity.
Qed.

(** X7: after a transfer has succeeded, the balance route shows the sender
    its balance less the amount and the owner of the recipient wallet its
    balance plus the amount. *)
Theorem balance_after_transfer (request : TransferRequest) (user payee : User)
    (hex : string) (debit_id credit_id : UUID) (db : Session)
    (i j : nat) (X Y : Wallet.t) :
  let a := transfer_amount request in
  let db' :=
    (serve verify (Transfer request user hex debit_id credit_id) db).2 in
  Wallet_fetch_one_user_id (new_session db) (user_id user) = Some (i, X) →
  Wallet_fetch_one_wallet_number (new_session db)
    (transfer_wallet_number request) = Some (j, Y) →
  Wallet_fetch_one_user_id (new_session db) (user_id payee) = Some (j, Y) →
  Wallet.id Y ≠ Wallet.id X →
  0 < a → a ≤ Wallet.balance X →
  get_wallet_balance user (new_session db')
    = read_success 200 "Balance retrieved"
        (BalanceRetrieved (Wallet.balance X - a) (Wallet.currency X))
  ∧ get_wallet_balance payee (new_session db')
    = read_success 200 "Balance retrieved"
        (BalanceRetrieved (Wallet.balance Y + a) (Wallet.currency Y)).
Proof.
  intros a db' HX HY HP Hid Hpos Hcover.
  pose proof (distinct_wallets_apart _ _ _ _ _ _ _ HX HY Hid) as Hij.
  pose proof (serve_same_accounts verify
                (Transfer request user hex debit_id credit_id) db) as Hsame.
  destruct (transfer_committed request user hex debit_id credit_id db
              i j X Y HX HY Hid Hpos Hcover) as [Hws _].
  fold a db' in Hsame, Hws.
  destruct (list_find_lookup _ _ _ _ HX) as [HiX _].
  destruct (list_find_lookup _ _ _ _ HY) as [HjY _].
  unfold get_wallet_balance, Wallet_fetch_one_user_id.
  cbn [new_session set_work work].
  destruct (list_find_alike _ _ _ _ _
              (same_accounts_alike_user (user_id user) _ _ Hsame) HX)
    as (X' & HX' & ->).
  destruct (list_find_alike _ _ _ _ _
              (same_accounts_alike_user (user_id payee) _ _ Hsame) HP)
    as (Y' & HY' & ->).
  rewrite Hws in HX', HY'.
  rewrite list_lookup_insert_ne, list_lookup_insert_eq in HX'
    by eauto using lookup_lt_Some.
  rewrite list_lookup_insert_eq in HY'
    by (rewrite length_insert; eauto using lookup_lt_Some).
  by simplify_eq.
Qed.

(** X8: after a transfer has succeeded, the history route shows the sender
    one more row, the debit on its wallet, and the owner of the recipient
    wallet one more row, the credit on its wallet; either row carries the
    amount of the transfer and the key of the other. *)
Theorem history_after_transfer (request : TransferRequest)
    (user payee : User) (hex : string) (debit_id credit_id : UUID)
    (db : Session) (i j : nat) (X Y : Wallet.t) :
  let a := transfer_amount request in
  let db' :=
    (serve verify (Transfer request user hex debit_id credit_id) db).2 in
  Wallet_fetch_one_user_id (new_session db) (user_id user) = Some (i, X) →
  Wallet_fetch_one_wallet_number (new_session db)
    (transfer_wallet_number request) = Some (j, Y) →
  Wallet_fetch_one_user_id (new_session db) (user_id payee) = Some (j, Y) →
  Wallet.id Y ≠ Wallet.id X →
  0 < a → a ≤ Wallet.balance X →
  ∃ sent received,
    get_transaction_history user (new_session db')
      = read_success 200 "Transactions retrieved" (TransactionsRetrieved sent)
    ∧ sent ≡ₚ debit_row request user hex debit_id credit_id X
              :: Transaction_fetch_all_wallet_id (new_session db) (Wallet.id X)
    ∧ get_transaction_history payee (new_session db')
      = read_success 200 "Transactions retrieved"
          (TransactionsRetrieved received)
    ∧ received ≡ₚ credit_row request hex debit_id credit_id X Y
                  :: Transaction_fetch_all_wallet_id (new_session db)
                       (Wallet.id Y).
Proof.
  intros a db' HX HY HP Hid Hpos Hcover.
  pose proof (serve_same_accounts verify
                (Transfer request user hex debit_id credit_id) db) as Hsame.
  destruct (transfer_committed request user hex debit_id credit_id db
              i j X Y HX HY Hid Hpos Hcover) as [_ Hts].
  fold a db' in Hsame, Hts.
  unfold get_transaction_history, Wallet_fetch_one_user_id,
    Transaction_fetch_all_wallet_id.
  cbn [new_session set_work work].
  destruct (list_find_alike _ _ _ _ _
              (same_accounts_alike_user (user_id user) _ _ Hsame) HX)
    as (X' & HX' & ->).
  destruct (list_find_alike _ _ _ _ _
              (same_accounts_alike_user (user_id payee) _ _ Hsame) HP)
    as (Y' & HY' & ->).
  destruct (list_find_lookup _ _ _ _ HX) as [HiX _].
  destruct (list_find_lookup _ _ _ _ HY) as [HjY _].
  destruct (Forall2_lookup_lr _ _ _ _ _ _ Hsame HiX HX') as [<- _].
  destruct (Forall2_lookup_lr _ _ _ _ _ _ Hsame HjY HY') as [<- _].
  do 2 eexists. split_and!; [reflexivity| |reflexivity|].
  - rewrite Hts, filter_app, !reverse_Permutation.
    rewrite filter_cons_True, filter_cons_False, filter_nil by done.
    by rewrite Permutation_app_comm.
  - rewrite Hts, filter_app, !reverse_Permutation.
    rewrite filter_cons_False, filter_cons_True, filter_nil by (cbn; congruence).
    by rewrite Permutation_app_comm.
Qed.


(** X9: a deposit whose gateway call succeeds answers with its reference
    and the authorization url; when no earlier row has that reference, the
    status route then shows the depositor that reference as PENDING with
    the requested amount, whatever the gateway reports at that moment, and
    answers every other user with 404. *)
Theorem status_after_initiation (request : DepositRequest) (user : User)
    (hex : string) (tx_id : UUID) (url : option string) (db : Session)
    (j : nat) (wallet : Wallet.t) (gateway : option (option string)) :
  let reference := ("dep_" ++ hex)%string in
  let served :=
    serve verify
      (Deposit request user hex tx_id (GatewayReturned true (Some url))) db in
  100 ≤ deposit_amount request →
  Wallet_fetch_one_user_id (new_session db) (user_id user)
    = Some (j, wallet) →
  Forall (λ x, Transaction.reference x ≠ reference)
    (transactions (durable db)) →
  served.1
    = success_response 200 "Deposit initialized"
        (DepositInitialized reference url)
  ∧ check_deposit_status reference user gateway (new_session served.2)
    = read_success 200 "Transaction status retrieved"
        (StatusRetrieved reference PENDING (deposit_amount request) gateway)
  ∧ ∀ other, user_id other ≠ user_id user →
      check_deposit_status reference other gateway (new_session served.2)
      = read_raised (HTTPException 404 "Transaction not found").
Proof.
  intros reference served Hmin Hwallet Hfresh. subst served.
  cbn [serve]. unfold deposit_to_wallet.
  destruct (Z.ltb_spec (deposit_amount request) 100) as [|_]; [lia|].
  rewrite Hwallet. cbn. split; [done|].
  unfold check_deposit_status, Transaction_fetch_one_reference_user_id.
  unfold commit, new_session, set_work, set_transactions.
  cbn [work durable transactions].
  assert (list_find
            (λ x, Transaction.reference x = reference
                  ∧ Transaction.user_id x = user_id user)
            (transactions (durable db)) = None) as Hnone.
  { apply list_find_None. eapply Forall_impl; [exact Hfresh|].
    intros x Hx [Hr _]. done. }
  split.
  - rewrite list_find_app_r by done. cbn.
    rewrite decide_True by done. cbn. by destruct gateway.
  - intros other Hother.
    rewrite (proj2 (list_find_None _ _)); [done|].
    apply Forall_app. split.
    + eapply Forall_impl; [exact Hfresh|]. intros x Hx [Hr _]. done.
    + apply Forall_singleton. intros [_ Hu]. cbn in Hu. congruence.
Qed.

(** X10: once a signed charge.success event has settled an open
    transaction, the status route shows its owner the reference as SUCCESS
    with the amount stored at initiation (not the amount of the event),
    whatever the gateway reports at that moment. *)
Theorem status_after_settlement (request : Request) (payload : Payload)
    (db : Session) (r : string) (a : Z) (i j : nat) (x : Transaction.t)
    (w : Wallet.t) (user : User) (gateway : option (option string)) :
  validly_signed verify request →
  json request = Some payload →
  reports_settlement payload →
  ev_reference (data payload) = Some r → r ≠ "" →
  ev_amount (data payload) = Some a →
  Transaction_fetch_one_reference (new_session db) r = Some (i, x) →
  Transaction.status x = PENDING →
  Transaction.user_id x = user_id user →
  Wallet_fetch_one_id (new_session db) (Transaction.wallet_id x)
    = Some (j, w) →
  check_deposit_status r user gateway
    (new_session (serve verify (Webhook request) db).2)
  = read_success 200 "Transaction status retrieved"
      (StatusRetrieved r SUCCESS (Transaction.amount x) gateway).
Proof.
  intros Hsigned Hjson Hsettle Hr Hne Ha Hx Hpending Huser Hw.
  destruct (webhook_settles verify request payload db r a i j x w)
    as (db' & Hserve & _ & Hts & _); try done; [congruence|].
  rewrite Hserve. cbn [snd].
  unfold check_deposit_status, Transaction_fetch_one_reference_user_id.
  cbn [new_session set_work work]. rewrite Hts.
  apply list_find_Some in Hx as (Hi & Href & Hleast).
  rewrite (proj2 (list_find_Some _ _ i
             (Transaction.set_extra (EventExtra (data payload))
                (Transaction.set_status SUCCESS x)))).
  { cbn. by destruct gateway. }
  split; [|split; [done|]].
  - apply list_lookup_insert_eq. eauto using lookup_lt_Some.
  - intros k y Hk Hlt [Hy _].
    rewrite list_lookup_insert_ne in Hk by lia. by eapply Hleast.
Qed.

(** X11: a deposit initiation, whatever its input and whatever the gateway
    does, changes no wallet at any commit point it adds, and it adds at
    most one row: a deposit credit of at least 100 on the wallet of the
    caller, PENDING or FAILED, under the reference it generated. *)
Theorem initiation_touches_no_wallet (request : DepositRequest)
    (user : User) (hex : string) (tx_id : UUID) (reply : GatewayReply)
    (db : Session) :
  let db' := (serve verify (Deposit request user hex tx_id reply) db).2 in
  (∃ added, commit_points db' = added ++ commit_points db
            ∧ Forall (λ s, wallets s = wallets (durable db)) added)
  ∧ (transactions (durable db') = transactions (durable db)
     ∨ ∃ row,
         transactions (durable db') = transactions (durable db) ++ [row]
         ∧ Transaction.reference row = ("dep_" ++ hex)%string
         ∧ Transaction.user_id row = user_id user
         ∧ Transaction.type row = DEPOSIT
         ∧ Transaction.direction row = CREDIT
         ∧ Transaction.amount row = deposit_amount request
         ∧ 100 ≤ Transaction.amount row
         ∧ (Transaction.status row = PENDING
            ∨ Transaction.status row = FAILED)).
Proof.
  cbn zeta. cbn [serve]. run_route.
  1,4: split; [exists []; split; [reflexivity|constructor]|by left].
  - split.
    + eexists [_; _]. split; [reflexivity|]. by repeat constructor.
    + right. eexists. rewrite insert_last. split; [reflexivity|].
      match goal with H : (_ <? 100) = false |- _ => apply Z.ltb_ge in H end.
      split_and!; auto.
  - split.
    + eexists [_]. split; [reflexivity|]. by repeat constructor.
    + right. eexists. split; [reflexivity|].
      match goal with H : (_ <? 100) = false |- _ => apply Z.ltb_ge in H end.
      split_and!; auto.
Qed.

End Reading.

(** *** Keys and permissions *)

Section Keys.

Variable sha256_hexdigest : string → string.
Variable is_active : APIKey.t → bool.
Variable strip_upper : string → string.
Variable parse_uuid : string → option UUID.

Local Abbreviation key_limit := (key_limit is_active).
Local Abbreviation parse_expiry := (parse_expiry_to_datetime strip_upper).
Local Abbreviation create := (create_api_key sha256_hexdigest is_active strip_upper).
Local Abbreviation rollover :=
  (rollover_api_key sha256_hexdigest is_active strip_upper parse_uuid).
Local Abbreviation lookup_key := (get_current_user_from_api_key sha256_hexdigest is_active).
Local Abbreviation authorized := (authorize sha256_hexdigest is_active).

(** X12: an expiry is accepted exactly when, stripped and upper-cased, it
    is one of 1H, 1D, 1M and 1Y, and the moment it denotes lies one hour,
    one day, thirty days or 365 days after now. *)
Theorem parse_expiry_table (now : Z) (expiry : string) (t : Z) :
  parse_expiry now expiry = Some t ↔
    strip_upper expiry = "1H" ∧ t = now + 3600
    ∨ strip_upper expiry = "1D" ∧ t = now + 86400
    ∨ strip_upper expiry = "1M" ∧ t = now + 30 * 86400
    ∨ strip_upper expiry = "1Y" ∧ t = now + 365 * 86400.
Proof.
  unfold parse_expiry_to_datetime, mapping. cbn [mapping_get].
  set (key := strip_upper expiry).
  repeat match goal with
  | |- context [String.eqb ?k key] =>
      destruct (String.eqb_spec k key) as [<-|?]
  end;
    change (30 * 86400) with 2592000; change (365 * 86400) with 31536000;
    cbn -[String.eqb];
    (split; [intros ?; simplify_eq; auto 10|]);
    intros Hcase; decompose [and or] Hcase; subst; congruence.
Qed.

Lemma parse_expiry_future (now : Z) (expiry : string) (t : Z) :
  parse_expiry now expiry = Some t → now < t ≤ now + 365 * 86400.
Proof. rewrite parse_expiry_table. lia. Qed.


(** The loop returns what the first key with the hash of the presented key
    decides. *)
Lemma match_api_key_found (x_api_key : string) (keys : list APIKey.t)
    (dir : Directory) (i : nat) (key : APIKey.t) :
  list_find (λ key, sha256_hexdigest x_api_key = APIKey.hashed_key key) keys
    = Some (i, key) →
  match_api_key sha256_hexdigest is_active x_api_key keys dir =
    if negb (is_active key) then
      inl (HTTPException 401 "API key is revoked or expired")
    else
      match User_fetch_one_id dir (APIKey.user_id key) with
      | None =>
          inl (HTTPException 401 "User not found for the provided API key")
      | Some user => inr (Some (user, key))
      end.
Proof.
  revert i. induction keys as [|k keys IH]; intros i; cbn; [done|].
  unfold verify_api_key. case_decide as Hk.
  - intros [= <- <-]. apply String.eqb_eq in Hk. by rewrite Hk.
  - apply String.eqb_neq in Hk. rewrite Hk.
    destruct (list_find _ keys) as [[i' key']|] eqn:Hfind; [|done].
    cbn. intros [= <- <-]. by apply (IH i').
Qed.

Lemma match_api_key_none (x_api_key : string) (keys : list APIKey.t)
    (dir : Directory) :
  list_find (λ key, sha256_hexdigest x_api_key = APIKey.hashed_key key) keys
    = None →
  match_api_key sha256_hexdigest is_active x_api_key keys dir = inr None.
Proof.
  induction keys as [|k keys IH]; cbn; [done|].
  unfold verify_api_key. case_decide as Hk; [done|].
  apply String.eqb_neq in Hk. rewrite Hk.
  destruct (list_find _ keys); [done|]. auto.
Qed.

(** X13: a request that presents a key whose first match in the table is
    revoked or expired is refused with 401, for every permission asked and
    even when it also carries a token that identifies a user. *)
Theorem inactive_key_refused (permission x_api_key : string)
    (jwt_user : option User) (dir : Directory) (i : nat) (key : APIKey.t) :
  x_api_key ≠ "" →
  list_find (λ key, sha256_hexdigest x_api_key = APIKey.hashed_key key)
    (api_keys dir) = Some (i, key) →
  is_active key = false →
  authorized permission jwt_user (Some x_api_key) dir
    = inl (HTTPException 401 "API key is revoked or expired").
Proof.
  intros Hne Hfind Hdead. unfold authorize, get_current_user_from_api_key.
  rewrite (falsy_Some _ Hne). cbn [default from_option id].
  by rewrite (match_api_key_found _ _ _ _ _ Hfind), Hdead.
Qed.

(** X14: a request that presents an active key of an existing user and no
    token acts as that user exactly for the permissions the key lists; for
    any other permission it is refused with 403. *)
Theorem key_grants_listed_permissions (permission x_api_key : string)
    (dir : Directory) (i : nat) (key : APIKey.t) (owner : User) :
  x_api_key ≠ "" →
  list_find (λ key, sha256_hexdigest x_api_key = APIKey.hashed_key key)
    (api_keys dir) = Some (i, key) →
  is_active key = true →
  User_fetch_one_id dir (APIKey.user_id key) = Some owner →
  (permission ∈ APIKey.permissions key →
   authorized permission None (Some x_api_key) dir = inr owner)
  ∧ (permission ∉ APIKey.permissions key →
     authorized permission None (Some x_api_key) dir
       = inl (HTTPException 403 "Insufficient API key permissions")).
Proof.
  intros Hne Hfind Hlive Howner.
  unfold authorize, get_current_user_from_api_key.
  rewrite (falsy_Some _ Hne). cbn [default from_option id].
  rewrite (match_api_key_found _ _ _ _ _ Hfind), Hlive, Howner. cbn.
  split; intros Hperm.
  - rewrite bool_decide_eq_false_2; [done|]. by intros Hnot.
  - by rewrite bool_decide_eq_true_2.
Qed.

(** X15: when the key header does not end the request, a token that
    identifies a user makes the request act as that user for every
    permission: the key, if any, and its permissions are not consulted.
    Without a token and without a key that the table knows the request is
    refused with 401. *)
Theorem token_grants_everything (permission : string)
    (x_api_key : option string) (dir : Directory)
    (data : option (User * APIKey.t)) :
  lookup_key x_api_key dir = inr data →
  (∀ user, authorized permission (Some user) x_api_key dir = inr user)
  ∧ (data = None →
     authorized permission None x_api_key dir
       = inl (HTTPException 401 "Authentication required")).
Proof.
  intros Hkey. unfold authorize. rewrite Hkey. split; [done|].
  by intros ->.
Qed.


Lemma first_invalid_None (perms : list string) :
  first_invalid perms = None →
  Forall (λ perm, perm ∈ valid_permissions) perms.
Proof.
  unfold first_invalid. intros Hnone%fmap_None%list_find_None.
  eapply Forall_impl; [exact Hnone|]. intros perm Hperm.
  by apply dec_stable.
Qed.

(** Appending a key adds at most one active key, and none for another
    user. *)
Lemma active_keys_insert (u : UUID) (key : APIKey.t) (dir : Directory) :
  (length (active_keys is_active u (APIKey_insert key dir))
   ≤ S (length (active_keys is_active u dir)))%nat
  ∧ (APIKey.user_id key ≠ u →
     active_keys is_active u (APIKey_insert key dir)
     = active_keys is_active u dir).
Proof.
  unfold active_keys, APIKey_insert. cbn [api_keys].
  rewrite !filter_app, length_app. split.
  - pose proof (length_filter (λ k, is_active k = true)
                  (filter (λ k, APIKey.user_id k = u) [key])) as H1.
    pose proof (length_filter (λ k, APIKey.user_id k = u) [key]) as H2.
    cbn [length] in H2. lia.
  - intros Hne. rewrite (filter_cons_False _ key) by done.
    by rewrite filter_nil, app_nil_r.
Qed.

(** X16: whatever it is given, the create route either leaves the table as
    it is and answers with an error, or answers 201 with the plain key and
    appends one key: owned by the caller, not revoked, holding the hash of
    the plain key, with permissions of the three known kinds only, due to
    expire after now and within 365 days, and stored only when the caller
    had fewer than five active keys. *)
Theorem create_api_key_effect (request : CreateAPIKeyRequest) (user : User)
    (now : Z) (random_part : string) (key_id : UUID) (dir : Directory) :
  let answer := create request user now random_part key_id dir in
  (answer.2 = dir ∧ ∀ code message data, answer.1 ≠ key_success code message data)
  ∨ ∃ expires_at,
      let plain_key := ("sk_live__" ++ random_part)%string in
      answer.1 = key_success 201 "API key created successfully"
                   (KeyCreated plain_key expires_at)
      ∧ api_keys answer.2
        = api_keys dir
          ++ [APIKey.mk key_id (user_id user) (create_name request)
                (sha256_hexdigest plain_key) (create_permissions request)
                expires_at false]
      ∧ users answer.2 = users dir
      ∧ now < expires_at ≤ now + 365 * 86400
      ∧ Forall (λ perm, perm ∈ valid_permissions)
          (create_permissions request)
      ∧ (length (active_keys is_active (user_id user) dir) < 5)%nat.
Proof.
  cbn zeta. unfold create_api_key.
  destruct (parse_expiry now (create_expiry request)) as [expires_at|]
    eqn:Hexpiry; [|by left].
  destruct (Nat.leb_spec 5
              (length (active_keys is_active (user_id user) dir)));
    [by left|].
  destruct (first_invalid (create_permissions request)) eqn:Hperms;
    [by left|].
  right. exists expires_at. cbn.
  apply parse_expiry_future in Hexpiry.
  split_and!; auto using first_invalid_None; lia.
Qed.

(** X17: whatever it is given, the rollover route either leaves the table
    as it is and answers with an error, or answers 201 and appends one key
    for the caller that takes its name and its permissions from a key of
    the caller that is in the table under the id asked for and is not
    active; the old key stays in the table as it was. *)
Theorem rollover_api_key_effect (request : RolloverAPIKeyRequest)
    (user : User) (now : Z) (random_part : string) (key_id : UUID)
    (dir : Directory) :
  let answer := rollover request user now random_part key_id dir in
  (answer.2 = dir ∧ ∀ code message data, answer.1 ≠ key_success code message data)
  ∨ ∃ old_id old_key expires_at,
      let plain_key := ("sk_live__" ++ random_part)%string in
      parse_uuid (expired_key_id request) = Some old_id
      ∧ old_key ∈ api_keys dir
      ∧ APIKey.id old_key = old_id
      ∧ APIKey.user_id old_key = user_id user
      ∧ is_active old_key = false
      ∧ answer.1 = key_success 201 "API key rolled over successfully"
                     (KeyRolledOver plain_key expires_at
                        (APIKey.permissions old_key))
      ∧ api_keys answer.2
        = api_keys dir
          ++ [APIKey.mk key_id (user_id user) (APIKey.name old_key)
                (sha256_hexdigest plain_key) (APIKey.permissions old_key)
                expires_at false]
      ∧ users answer.2 = users dir
      ∧ now < expires_at ≤ now + 365 * 86400
      ∧ (length (active_keys is_active (user_id user) dir) < 5)%nat.
Proof.
  cbn zeta. unfold rollover_api_key.
  destruct (parse_uuid (expired_key_id request)) as [old_id|]; [|by left].
  destruct (APIKey_fetch_one_id_user_id dir old_id (user_id user))
    as [old_key|] eqn:Hold; [|by left].
  destruct (is_active old_key) eqn:Hdead; [by left|].
  destruct (parse_expiry now (rollover_expiry request)) as [expires_at|]
    eqn:Hexpiry; [|by left].
  destruct (Nat.leb_spec 5
              (length (active_keys is_active (user_id user) dir)));
    [by left|].
  right. exists old_id, old_key, expires_at. cbn.
  unfold APIKey_fetch_one_id_user_id in Hold.
  apply fmap_Some in Hold as ([i k] & Hfind & ->).
  apply list_find_Some in Hfind as (Hi & [Hid Huser] & _). cbn.
  apply parse_expiry_future in Hexpiry.
  split_and!; eauto using list_elem_of_lookup_2; lia.
Qed.

(** X18: the limit of five active keys per user is kept by both routes:
    when no user has more than five active keys before a create or a
    rollover, none has after it. *)
Theorem key_limit_kept (dir : Directory) (user : User) (now : Z)
    (random_part : string) (key_id : UUID)
    (created : CreateAPIKeyRequest) (rolled : RolloverAPIKeyRequest) :
  key_limit dir →
  key_limit (create created user now random_part key_id dir).2
  ∧ key_limit (rollover rolled user now random_part key_id dir).2.
Proof.
  intros Hlimit. split; intros u.
  - unfold create_api_key.
    repeat case_match; try apply Hlimit. cbn [snd].
    set (key := APIKey.mk _ _ _ _ _ _ _).
    destruct (active_keys_insert u key dir) as [Hle Hother].
    destruct (decide (user_id user = u)) as [<-|Hne].
    + match goal with H : (5 <=? _)%nat = false |- _ =>
        apply Nat.leb_gt in H end. lia.
    + rewrite Hother by done. apply Hlimit.
  - unfold rollover_api_key.
    repeat case_match; try apply Hlimit. cbn [snd].
    set (key := APIKey.mk _ _ _ _ _ _ _).
    destruct (active_keys_insert u key dir) as [Hle Hother].
    destruct (decide (user_id user = u)) as [<-|Hne].
    + match goal with H : (5 <=? _)%nat = false |- _ =>
        apply Nat.leb_gt in H end. lia.
    + rewrite Hother by done. apply Hlimit.
Qed.


(** X19: both routes keep the table free of unknown permissions: when
    every key in the table lists permissions of the three known kinds
    only, so does every key after a create or a rollover. *)
Theorem permissions_valid_kept (dir : Directory) (user : User) (now : Z)
    (random_part : string) (key_id : UUID)
    (created : CreateAPIKeyRequest) (rolled : RolloverAPIKeyRequest) :
  permissions_valid dir →
  permissions_valid (create created user now random_part key_id dir).2
  ∧ permissions_valid (rollover rolled user now random_part key_id dir).2.
Proof.
  intros Hvalid. unfold permissions_valid in *. split.
  - unfold create_api_key. repeat case_match; try done. cbn.
    apply Forall_app. split; [done|]. apply Forall_singleton. cbn.
    by apply first_invalid_None.
  - unfold rollover_api_key. repeat case_match; try done. cbn.
    apply Forall_app. split; [done|]. apply Forall_singleton. cbn.
    match goal with
    | H : APIKey_fetch_one_id_user_id _ _ _ = Some _ |- _ =>
        unfold APIKey_fetch_one_id_user_id in H;
        apply fmap_Some in H as ([i k] & [Hi _]%list_find_lookup & ->)
    end.
    by apply (Forall_lookup_1 _ _ _ _ Hvalid Hi).
Qed.

(** X20: a key that the create route has just handed out authenticates its
    creator.  When no key in the table had the same hash, the new row is
    active and the creator is in the user table, a request presenting the
    plain key and no token acts as the creator exactly for the permissions
    asked for at creation. *)
Theorem created_key_authenticates (request : CreateAPIKeyRequest)
    (user : User) (now : Z) (random_part : string) (key_id : UUID)
    (dir : Directory) (expires_at : Z) (permission : string) :
  let plain_key := ("sk_live__" ++ random_part)%string in
  let answer := create request user now random_part key_id dir in
  answer.1 = key_success 201 "API key created successfully"
               (KeyCreated plain_key expires_at) →
  Forall (λ key, APIKey.hashed_key key ≠ sha256_hexdigest plain_key)
    (api_keys dir) →
  is_active
    (APIKey.mk key_id (user_id user) (create_name request)
       (sha256_hexdigest plain_key) (create_permissions request)
       expires_at false) = true →
  User_fetch_one_id dir (user_id user) = Some user →
  authorized permission None (Some plain_key) answer.2 = inr user
  ↔ permission ∈ create_permissions request.
Proof.
  intros plain_key answer Hanswer Hfresh Hlive Huser. subst answer.
  unfold create_api_key in *.
  repeat case_match; simplify_eq/=.
  set (key := APIKey.mk _ _ _ _ _ _ _) in *.
  assert (list_find
            (λ k, sha256_hexdigest plain_key = APIKey.hashed_key k)
            (api_keys (APIKey_insert key dir))
          = Some (length (api_keys dir), key)) as Hfind.
  { cbn. rewrite list_find_app_r.
    - cbn. by rewrite decide_True.
    - apply list_find_None. eapply Forall_impl; [exact Hfresh|].
      intros k Hk Heq. by apply Hk. }
  unfold authorize, get_current_user_from_api_key.
  cbn [falsy]. cbn [default from_option id].
  change (String.eqb plain_key "") with false. cbn iota.
  rewrite (match_api_key_found _ _ _ _ _ Hfind), Hlive.
  change (User_fetch_one_id (APIKey_insert key dir) (APIKey.user_id key))
    with (User_fetch_one_id dir (user_id user)).
  rewrite Huser. cbn.
  case_bool_decide as Hperm; cbn in Hperm; split; try done;
    intros ?; by apply dec_stable.
Qed.

End Keys.

(** ** The further properties on the concrete ledger *)

(** A deposit that the gateway refuses, a transfer that goes through and
    one beyond the balance: the 5000 of the ledger stay 5000. *)
Lemma total_conserved_witness :
  total
    (durable
       (serve_all tagged
          [Deposit (mkDepositRequest 300) owner_A "feedfacefeedface" 8%N
             (GatewayReturned false None);
           Transfer (mkTransferRequest "B-001" 2000) owner_A
             "0011223344556677" 100%N 101%N;
           Transfer (mkTransferRequest "B-001" 4000) owner_A
             "8899aabbccddeeff" 102%N 103%N]
          (at_rest (ledger [open_deposit]))))
  = total (durable (at_rest (ledger [open_deposit]))).
Proof.
  apply (total_conserved tagged). repeat constructor; discriminate.
Defined.

(** A signed refund notice. *)
Lemma other_event_commits_nothing_witness :
  ∃ db',
    serve tagged (Webhook (signed refund_notice))
      (at_rest (ledger [open_deposit])) = (Acknowledged, db')
    ∧ durable db' = durable (at_rest (ledger [open_deposit]))
    ∧ commit_points db' = commit_points (at_rest (ledger [open_deposit])).
Proof.
  apply (other_event_commits_nothing tagged (signed refund_notice)
           refund_notice (at_rest (ledger [open_deposit])));
    [apply signed_is_valid|reflexivity|discriminate].
Defined.

(** The open deposit names wallet 2; here the ledger holds wallet A only. *)
Lemma settlement_without_wallet_witness :
  ∃ db' x',
    serve tagged (Webhook (signed (settlement 700)))
      (at_rest (mkStore [wallet_A] [open_deposit] []))
    = (Acknowledged, db')
    ∧ transactions (durable db') = <[0%nat := x']> [open_deposit]
    ∧ transactions (durable db') !! 0%nat = Some x'
    ∧ Transaction.status x' = SUCCESS
    ∧ same_entry open_deposit x'
    ∧ Transaction.extra x' = EventExtra (data (settlement 700))
    ∧ wallets (durable db') = [wallet_A].
Proof.
  apply (settlement_without_wallet tagged (signed (settlement 700))
           (settlement 700) (at_rest (mkStore [wallet_A] [open_deposit] []))
           "dep_0123456789abcdef" 0%nat open_deposit);
    [apply signed_is_valid|reflexivity|by split|reflexivity|discriminate
    |reflexivity|discriminate|reflexivity].
Defined.

(** A sends 2000 to B-001 and both look at their balance. *)
Lemma balance_after_transfer_witness :
  let db' :=
    (serve tagged
       (Transfer (mkTransferRequest "B-001" 2000) owner_A
          "0011223344556677" 100%N 101%N) (at_rest (ledger []))).2 in
  get_wallet_balance owner_A (new_session db')
    = read_success 200 "Balance retrieved"
        (BalanceRetrieved (5000 - 2000) "NGN")
  ∧ get_wallet_balance owner_B (new_session db')
    = read_success 200 "Balance retrieved"
        (BalanceRetrieved (0 + 2000) "NGN").
Proof.
  apply (balance_after_transfer tagged (mkTransferRequest "B-001" 2000)
           owner_A owner_B "0011223344556677" 100%N 101%N
           (at_rest (ledger [])) 0%nat 1%nat wallet_A wallet_B);
    [reflexivity|reflexivity|reflexivity|discriminate|reflexivity
    |discriminate].
Defined.

(** A sends 2000 to B-001 and both look at their history; B had the open
    deposit on its wallet before. *)
Lemma history_after_transfer_witness :
  let request := mkTransferRequest "B-001" 2000 in
  let db := at_rest (ledger [open_deposit]) in
  let db' :=
    (serve tagged
       (Transfer request owner_A "0011223344556677" 100%N 101%N) db).2 in
  ∃ sent received,
    get_transaction_history owner_A (new_session db')
      = read_success 200 "Transactions retrieved" (TransactionsRetrieved sent)
    ∧ sent ≡ₚ debit_row request owner_A "0011223344556677" 100%N 101%N
                wallet_A
              :: Transaction_fetch_all_wallet_id (new_session db) 1%N
    ∧ get_transaction_history owner_B (new_session db')
      = read_success 200 "Transactions retrieved"
          (TransactionsRetrieved received)
    ∧ received ≡ₚ credit_row request "0011223344556677" 100%N 101%N
                    wallet_A wallet_B
                  :: Transaction_fetch_all_wallet_id (new_session db) 2%N.
Proof.
  apply (history_after_transfer tagged (mkTransferRequest "B-001" 2000)
           owner_A owner_B "0011223344556677" 100%N 101%N
           (at_rest (ledger [open_deposit])) 0%nat 1%nat wallet_A wallet_B);
    [reflexivity|reflexivity|reflexivity|discriminate|reflexivity
    |discriminate].
Defined.

(** The owner of B deposits 700 and asks for the status while the gateway
    already reports the charge as paid. *)
Lemma status_after_initiation_witness :
  let served :=
    serve tagged
      (Deposit (mkDepositRequest 700) owner_B "0123456789abcdef" 7%N
         (GatewayReturned true (Some (Some "https://checkout/abc"))))
      (at_rest (ledger [])) in
  served.1
    = success_response 200 "Deposit initialized"
        (DepositInitialized "dep_0123456789abcdef"
           (Some "https://checkout/abc"))
  ∧ check_deposit_status "dep_0123456789abcdef" owner_B
      (Some (Some "success")) (new_session served.2)
    = read_success 200 "Transaction status retrieved"
        (StatusRetrieved "dep_0123456789abcdef" PENDING 700
           (Some (Some "success")))
  ∧ ∀ other, user_id other ≠ user_id owner_B →
      check_deposit_status "dep_0123456789abcdef" other
        (Some (Some "success")) (new_session served.2)
      = read_raised (HTTPException 404 "Transaction not found").
Proof.
  apply (status_after_initiation tagged (mkDepositRequest 700) owner_B
           "0123456789abcdef" 7%N (Some "https://checkout/abc")
           (at_rest (ledger [])) 1%nat wallet_B (Some (Some "success")));
    [discriminate|reflexivity|constructor].
Defined.

(** The gateway confirms the open deposit with 900; the status route keeps
    showing the 700 of the row. *)
Lemma status_after_settlement_witness :
  check_deposit_status "dep_0123456789abcdef" owner_B None
    (new_session
       (serve tagged (Webhook (signed (settlement 900)))
          (at_rest (ledger [open_deposit]))).2)
  = read_success 200 "Transaction status retrieved"
      (StatusRetrieved "dep_0123456789abcdef" SUCCESS 700 None).
Proof.
  apply (status_after_settlement tagged (signed (settlement 900))
           (settlement 900) (at_rest (ledger [open_deposit]))
           "dep_0123456789abcdef" 900 0%nat 1%nat open_deposit wallet_B
           owner_B None);
    [apply signed_is_valid|reflexivity|by split|reflexivity|discriminate
    |reflexivity|reflexivity|reflexivity|reflexivity|reflexivity].
Defined.

(** The stale key, presented together with a token of its owner. *)
Lemma inactive_key_refused_witness :
  authorize tag_digest active_at_1000 "transfer" (Some owner_A)
    (Some "sk_live__stale") directory
  = inl (HTTPException 401 "API key is revoked or expired").
Proof.
  apply (inactive_key_refused tag_digest active_at_1000 "transfer"
           "sk_live__stale" (Some owner_A) directory 1%nat stale_key);
    [discriminate|reflexivity|reflexivity].
Defined.

(** The reading key may read and may not transfer. *)
Lemma key_grants_listed_permissions_witness :
  ("read" ∈ ["read"] →
   authorize tag_digest active_at_1000 "read" None (Some "sk_live__reader")
     directory = inr owner_A)
  ∧ ("transfer" ∉ ["read"] →
     authorize tag_digest active_at_1000 "transfer" None
       (Some "sk_live__reader") directory
     = inl (HTTPException 403 "Insufficient API key permissions")).
Proof.
  split.
  - apply (key_grants_listed_permissions tag_digest active_at_1000 "read"
             "sk_live__reader" directory 0%nat reader_key owner_A);
      [discriminate|reflexivity|reflexivity|reflexivity].
  - apply (key_grants_listed_permissions tag_digest active_at_1000 "transfer"
             "sk_live__reader" directory 0%nat reader_key owner_A);
      [discriminate|reflexivity|reflexivity|reflexivity].
Defined.

(** A token of the owner of B next to the reading key of the owner of A. *)
Lemma token_grants_everything_witness :
  (∀ user,
     authorize tag_digest active_at_1000 "transfer" (Some user)
       (Some "sk_live__reader") directory = inr user)
  ∧ (Some (owner_A, reader_key) = None →
     authorize tag_digest active_at_1000 "transfer" None
       (Some "sk_live__reader") directory
     = inl (HTTPException 401 "Authentication required")).
Proof.
  apply (token_grants_everything tag_digest active_at_1000 "transfer"
           (Some "sk_live__reader") directory (Some (owner_A, reader_key))).
  reflexivity.
Defined.

Lemma directory_within_limit : key_limit active_at_1000 directory.
Proof.
  intros u. unfold active_keys.
  etransitivity; [apply length_filter|].
  etransitivity; [apply length_filter|]. cbn. lia.
Defined.

Lemma directory_permissions_valid : permissions_valid directory.
Proof. unfold permissions_valid. repeat constructor. Defined.

(** The owner of A asks for a key for a day and rolls the stale key over
    for a year, at time 1000. *)
Lemma key_limit_kept_witness :
  key_limit active_at_1000
    (create_api_key tag_digest active_at_1000 ascii_strip_upper
       (mkCreateAPIKeyRequest "mobile" ["deposit"; "read"] " 1d ")
       owner_A 1000 "fresh" 3%N directory).2
  ∧ key_limit active_at_1000
      (rollover_api_key tag_digest active_at_1000 ascii_strip_upper
         digit_uuid (mkRolloverAPIKeyRequest "2" "1y")
         owner_A 1000 "fresh" 3%N directory).2.
Proof.
  apply (key_limit_kept tag_digest active_at_1000 ascii_strip_upper
           digit_uuid directory owner_A 1000 "fresh" 3%N).
  apply directory_within_limit.
Defined.

Lemma permissions_valid_kept_witness :
  permissions_valid
    (create_api_key tag_digest active_at_1000 ascii_strip_upper
       (mkCreateAPIKeyRequest "mobile" ["deposit"; "read"] " 1d ")
       owner_A 1000 "fresh" 3%N directory).2
  ∧ permissions_valid
      (rollover_api_key tag_digest active_at_1000 ascii_strip_upper
         digit_uuid (mkRolloverAPIKeyRequest "2" "1y")
         owner_A 1000 "fresh" 3%N directory).2.
Proof.
  apply (permissions_valid_kept tag_digest active_at_1000 ascii_strip_upper
           digit_uuid directory owner_A 1000 "fresh" 3%N).
  apply directory_permissions_valid.
Defined.

(** The key created for a day deposits and does not transfer. *)
Lemma created_key_authenticates_witness :
  let answer :=
    create_api_key tag_digest active_at_1000 ascii_strip_upper
      (mkCreateAPIKeyRequest "mobile" ["deposit"; "read"] " 1d ")
      owner_A 1000 "fresh" 3%N directory in
  authorize tag_digest active_at_1000 "deposit" None (Some "sk_live__fresh")
    answer.2 = inr owner_A
  ↔ "deposit" ∈ ["deposit"; "read"].
Proof.
  apply (created_key_authenticates tag_digest active_at_1000
           ascii_strip_upper
           (mkCreateAPIKeyRequest "mobile" ["deposit"; "read"] " 1d ")
           owner_A 1000 "fresh" 3%N directory (1000 + 86400) "deposit");
    [reflexivity|repeat constructor; discriminate|reflexivity|reflexivity].
Defined.
